(** * react-querybuilder: query tree, structural operations and the
      Elasticsearch rule processor

    The development has two parts.

    - Part I embeds [defaultRuleProcessorElasticSearch]
      (packages/react-querybuilder/src/utils/formatQuery/
      defaultRuleProcessorElasticSearch.ts) and the [canDrop] predicate of
      [useRuleDnD] (packages/dnd/src/hooks/useRuleDnD.ts).  The helpers
      these import from modules that are not part of the sources at hand
      ([toArray], [isValidValue], [shouldRenderAsNumber]) and the JavaScript
      built-ins [parseFloat] and number-to-string conversion are section
      variables.

    - Part II models the query tree and the structural operations [add],
      [remove], [update], [move], together with [findPath] and the SQL
      walk of [formatQuery].  Their implementation is not part of the
      sources at hand; each definition there is marked as modelled from
      the specification.

    - Part III states and proves the properties: the processor's
      scripted comparisons, omissions and numeric rendering, the
      alternation invariant of independent-combinator trees, the no-op
      policy for addressing errors and for moves into a descendant, and
      the SQL fallback expression.

    - Part IV adds facts about the embedded code: what [escapeSQ]
      guarantees, when the processor throws or omits a rule, how the
      negating operators relate to the ones they negate, which drops
      the hook accepts among siblings, and how [useMergedContext]
      (packages/react-querybuilder/src/hooks/useMergedContext.ts,
      embedded in Part I.g) merges props and context. *)

From Stdlib Require Import List String Ascii Bool Arith PeanoNat ZArith Lia.
From Stdlib Require Import Floats.SpecFloat.
Import ListNotations.

Local Open Scope list_scope.
Local Open Scope string_scope.

(* ================================================================== *)
(** * Part I.a  JavaScript values *)
(* ================================================================== *)

(** A rule's [value] has TypeScript type [any].  The processor inspects it
    with [typeof], truthiness tests, template literals and method calls,
    so it is modelled as a JSON-like value.  Numbers are IEEE-754 doubles
    ([spec_float]); objects are property lists. *)
#[warnings="-register-all"]
Inductive any : Type :=
| VUndefined
| VNull
| VBool (b : bool)
| VNum (n : spec_float)
| VStr (s : string)
| VArr (elems : list any)
| VObj (props : list (string * any)).

Inductive JsType := TUndefined | TObject | TBoolean | TNumber | TString.

Definition typeof (v : any) : JsType :=
  match v with
  | VUndefined => TUndefined
  | VNull => TObject
  | VBool _ => TBoolean
  | VNum _ => TNumber
  | VStr _ => TString
  | VArr _ => TObject
  | VObj _ => TObject
  end.

Definition isTString (v : any) : bool :=
  match v with VStr _ => true | _ => false end.

Definition isTBoolean (v : any) : bool :=
  match v with VBool _ => true | _ => false end.

Definition isNaN (n : spec_float) : bool :=
  match n with S754_nan => true | _ => false end.

Definition isZero (n : spec_float) : bool :=
  match n with S754_zero _ => true | _ => false end.

Definition isEmptyString (s : string) : bool :=
  match s with EmptyString => true | String _ _ => false end.

(** JavaScript [ToBoolean]. *)
Definition truthy (v : any) : bool :=
  match v with
  | VUndefined | VNull => false
  | VBool b => b
  | VNum n => negb (isNaN n || isZero n)
  | VStr s => negb (isEmptyString s)
  | VArr _ | VObj _ => true
  end.

(** [a[i]] on an array: [undefined] when out of range. *)
Definition index (a : list any) (i : nat) : any := nth i a VUndefined.

(** Exceptions are results of their own. *)
Inductive JsError := TypeError.

Inductive outcome (A : Type) : Type :=
| Return (a : A)
| Throw (e : JsError).
Arguments Return {A} a.
Arguments Throw {A} e.

Definition bind {A B} (m : outcome A) (k : A -> outcome B) : outcome B :=
  match m with
  | Return a => k a
  | Throw e => Throw e
  end.

Notation "x <- m ;; k" := (bind m (fun x => k))
  (at level 61, m at next level, right associativity).

(** Object literals. *)
Definition obj1 (k : string) (v : any) : any := VObj [(k, v)].
Definition JsFalse : any := VBool false.

(* ================================================================== *)
(** * Part I.b  Rules *)
(* ================================================================== *)

Inductive ValueSource := VSvalue | VSfield.

(** [RuleType]: [field], [operator], [value], optional [valueSource],
    optional [id] and [disabled]. *)
Record RuleType := mkRule {
  id : option string;
  field : string;
  operator : string;
  value : any;
  valueSource : option ValueSource;
  disabled : option bool
}.

Definition isFieldSource (vs : option ValueSource) : bool :=
  match vs with Some VSfield => true | _ => false end.

(** [ValueProcessorOptions], of which the processor reads [parseNumbers]. *)
Record ValueProcessorOptions := mkOptions {
  parseNumbers : option bool
}.

(** [operator] is compared against string literals by [switch]. *)
Definition oneOf (s : string) (l : list string) : bool :=
  existsb (String.eqb s) l.

(* ================================================================== *)
(** * Part I.c  String helpers of the processor *)
(* ================================================================== *)

Definition quoteChar : ascii := "'"%char.
Definition backslashChar : ascii := "\"%char.

(** [s.replace(/('|\\)/g, `\\$1`)]: every quote and backslash gets a
    backslash in front. *)
Fixpoint escapeChars (s : string) : string :=
  match s with
  | EmptyString => EmptyString
  | String c s' =>
      if (Ascii.eqb c quoteChar || Ascii.eqb c backslashChar)%bool
      then String backslashChar (String c (escapeChars s'))
      else String c (escapeChars s')
  end.

(** [escapeSQ = (s: string) => s?.replace(...)].  The optional chaining
    yields [undefined] on [null] and [undefined]; any other value that is
    not a string has no [replace] method and the call throws. *)
Definition escapeSQ (s : any) : outcome any :=
  match s with
  | VUndefined | VNull => Return VUndefined
  | VStr x => Return (VStr (escapeChars x))
  | _ => Throw TypeError
  end.

Definition toLowerAscii (c : ascii) : ascii :=
  let n := nat_of_ascii c in
  if ((65 <=? n)%nat && (n <=? 90)%nat)%bool then ascii_of_nat (n + 32) else c.

Fixpoint toLowerCase (s : string) : string :=
  match s with
  | EmptyString => EmptyString
  | String c s' => String (toLowerAscii c) (toLowerCase s')
  end.

(** [/^(does)?not/i.test(op)] *)
Definition testNotRegex (op : string) : bool :=
  let l := toLowerCase op in
  (String.prefix "not" l || String.prefix "doesnot" l)%bool.

(** [negateIfNotOp] *)
Definition negateIfNotOp (op : string) (elasticSearchRule : any) : any :=
  if testNotRegex op
  then obj1 "bool" (obj1 "must_not" elasticSearchRule)
  else elasticSearchRule.

(** [rangeOperatorMap] *)
Definition rangeOperatorMap (op : string) : string :=
  if op =? "<" then "lt"
  else if op =? "<=" then "lte"
  else if op =? ">" then "gt"
  else "gte".

(** [textFunctionMap[o] ?? o] *)
Definition textFunction (o : string) : string :=
  if o =? "beginsWith" then "startsWith"
  else if o =? "doesNotContain" then "contains"
  else if o =? "doesNotBeginWith" then "startsWith"
  else if o =? "doesNotEndWith" then "endsWith"
  else o.

(** [getTextScript] *)
Definition getTextScript (f o v : string) : string :=
  let script := "doc['" ++ f ++ "']." ++ textFunction o ++ "(doc['" ++ v ++ "'])" in
  if String.prefix "d" o then "!" ++ script else script.

(** The scripted filter [{ bool: { filter: { script: { script } } } }]. *)
Definition scriptFilter (script : string) : any :=
  obj1 "bool" (obj1 "filter" (obj1 "script" (obj1 "script" (VStr script)))).

(** [Object.prototype.hasOwnProperty] on a property list. *)
Definition hasOwnProperty (props : list (string * any)) (k : string) : bool :=
  existsb (fun kv => fst kv =? k) props.

(** [Array.prototype.map] with a callback that may throw: the elements
    are visited in order and the first exception ends the loop. *)
Fixpoint mapOutcome {A B} (f : A -> outcome B) (l : list A) : outcome (list B) :=
  match l with
  | [] => Return []
  | x :: l' =>
      y <- f x ;;
      ys <- mapOutcome f l' ;;
      Return (y :: ys)
  end.

(* ================================================================== *)
(** * Part I.d  The Elasticsearch rule processor *)
(* ================================================================== *)

Section ElasticSearch.

(** [toArray] from ../arrayUtils. *)
Variable toArray : any -> list any.
(** [isValidValue] and [shouldRenderAsNumber] from ./utils; the second
    argument of the latter is [parseNumbers?: boolean]. *)
Variable isValidValue : any -> bool.
Variable shouldRenderAsNumber : any -> option bool -> bool.
(** The built-in [parseFloat] and the number-to-string conversion used
    by template literals. *)
Variable parseFloat : any -> spec_float.
Variable numToString : spec_float -> string.

(** Template-literal interpolation [`${v}`] (JavaScript [ToString]).
    An object is converted by its [toString]: the inherited one gives
    "[object Object]"; an own property of that name is not callable
    (the values here are data), the inherited [valueOf] then returns the
    object itself, and the conversion throws.  An array is joined with
    commas, [null] and [undefined] elements as the empty string; it
    throws when the conversion of an element does. *)
Fixpoint ToString (v : any) : outcome string :=
  match v with
  | VUndefined => Return "undefined"
  | VNull => Return "null"
  | VBool true => Return "true"
  | VBool false => Return "false"
  | VNum n => Return (numToString n)
  | VStr s => Return s
  | VArr elems =>
      (fix join (l : list any) : outcome string :=
         match l with
         | [] => Return EmptyString
         | x :: l' =>
             match match x with
                   | VUndefined | VNull => Return EmptyString
                   | _ => ToString x
                   end with
             | Throw e => Throw e
             | Return sx =>
                 match l' with
                 | [] => Return sx
                 | _ :: _ =>
                     match join l' with
                     | Throw e => Throw e
                     | Return rest => Return (sx ++ "," ++ rest)
                     end
                 end
             end
         end) elems
  | VObj props =>
      if hasOwnProperty props "toString" then Throw TypeError
      else Return "[object Object]"
  end.

(** [valueRenderer]; it closes over the rule's [value] and the option
    [parseNumbers]. *)
Definition valueRenderer (value0 : any) (parseNumbers0 : option bool) (v : any) : any :=
  if isTBoolean value0 then value0
  else if shouldRenderAsNumber v parseNumbers0 then VNum (parseFloat v)
  else v.

(** [{ range: { [field]: { [op]: v } } }] *)
Definition rangeRule1 (f op : string) (v : any) : any :=
  obj1 "range" (obj1 f (obj1 op v)).

(** [{ range: { [field]: { gte: first, lte: second } } }] *)
Definition rangeRule2 (f : string) (first second : any) : any :=
  obj1 "range" (obj1 f (VObj [("gte", first); ("lte", second)])).

(** [{ term: { [field]: v } }] *)
Definition termRule (f : string) (v : any) : any :=
  obj1 "term" (obj1 f v).

(** [{ exists: { field } }] *)
Definition existsRule (f : string) : any :=
  obj1 "exists" (obj1 "field" (VStr f)).

(** [{ regexp: { [field]: { value: v } } }] *)
Definition regexpRule (f : string) (v : any) : any :=
  obj1 "regexp" (obj1 f (obj1 "value" v)).

(** [{ bool: operator === 'in' ? { should: arr } : { must_not: arr } }] *)
Definition inRule (op : string) (arr : list any) : any :=
  obj1 "bool" (if op =? "in" then obj1 "should" (VArr arr)
               else obj1 "must_not" (VArr arr)).

(** The second [switch] (lines 139-215): literal-value comparisons. *)
Definition valueSwitch (rule : RuleType) (opts : ValueProcessorOptions)
    : outcome any :=
  let f := field rule in
  let op := operator rule in
  let v := value rule in
  let render := valueRenderer v (parseNumbers opts) in
  if oneOf op ["<"; "<="; ">"; ">="] then
    Return (rangeRule1 f (rangeOperatorMap op) (render v))
  else if op =? "=" then
    Return (termRule f (render v))
  else if op =? "!=" then
    Return (obj1 "bool" (obj1 "must_not" (termRule f (render v))))
  else if op =? "null" then
    Return (obj1 "bool" (obj1 "must_not" (existsRule f)))
  else if op =? "notNull" then
    Return (existsRule f)
  else if oneOf op ["in"; "notIn"] then
    let valueAsArray := map render (toArray v) in
    if (0 <? List.length valueAsArray)%nat then
      Return (inRule op (map (fun x => termRule f (render x)) valueAsArray))
    else Return JsFalse
  else if oneOf op ["between"; "notBetween"] then
    let valueAsArray := toArray v in
    if ((2 <=? List.length valueAsArray)%nat
        && isValidValue (index valueAsArray 0)
        && isValidValue (index valueAsArray 1))%bool
    then
      let first := index valueAsArray 0 in
      let second := index valueAsArray 1 in
      if (shouldRenderAsNumber first (Some true)
          && shouldRenderAsNumber second (Some true))%bool
      then
        let firstNum := parseFloat first in
        let secondNum := parseFloat second in
        if SFltb secondNum firstNum
        then Return (negateIfNotOp op (rangeRule2 f (VNum secondNum) (VNum firstNum)))
        else Return (negateIfNotOp op (rangeRule2 f (VNum firstNum) (VNum secondNum)))
      else Return (negateIfNotOp op (rangeRule2 f first second))
    else Return JsFalse
  else if oneOf op ["contains"; "doesNotContain"] then
    Return (negateIfNotOp op (regexpRule f v))
  else if oneOf op ["beginsWith"; "doesNotBeginWith"] then
    text <- ToString v ;;
    Return (negateIfNotOp op (regexpRule f (VStr ("^" ++ text))))
  else if oneOf op ["endsWith"; "doesNotEndWith"] then
    text <- ToString v ;;
    Return (negateIfNotOp op (regexpRule f (VStr (text ++ "$"))))
  else Return JsFalse.

(** [defaultRuleProcessorElasticSearch].  The first [switch] (lines
    63-137) handles [valueSource === 'field']; an operator it has no
    [case] for leaves the [if] and reaches the second [switch]. *)
Definition defaultRuleProcessorElasticSearch
    (rule : RuleType) (opts : ValueProcessorOptions) : outcome any :=
  let f := field rule in
  let op := operator rule in
  let v := value rule in
  if isFieldSource (valueSource rule) then
    if existsb (fun x => negb (isTString x)) (toArray v) then Return JsFalse
    else
      fieldForScript <- escapeSQ (VStr f) ;;
      if oneOf op ["="; "!="; ">"; ">="; "<"; "<="] then
        let operatorForScript := if op =? "=" then "==" else op in
        valueForScript <- escapeSQ v ;;
        if negb (truthy valueForScript) then Return JsFalse
        else
          fieldText <- ToString fieldForScript ;;
          valueText <- ToString valueForScript ;;
          Return (scriptFilter
                    ("doc['" ++ fieldText ++ "'] " ++ operatorForScript
                     ++ " doc['" ++ valueText ++ "']"))
      else if oneOf op ["in"; "notIn"] then
        let valueAsArray := toArray v in
        if (0 <? List.length valueAsArray)%nat then
          arr <- mapOutcome
                   (fun x =>
                      fieldText <- ToString fieldForScript ;;
                      text <- ToString x ;;
                      Return (scriptFilter
                                ("doc['" ++ fieldText ++ "'] == doc['"
                                 ++ text ++ "']")))
                   valueAsArray ;;
          Return (inRule op arr)
        else Return JsFalse
      else if oneOf op ["between"; "notBetween"] then
        let valueAsArray := toArray v in
        if ((2 <=? List.length valueAsArray)%nat
            && truthy (index valueAsArray 0)
            && truthy (index valueAsArray 1))%bool
        then
          fieldText <- ToString fieldForScript ;;
          firstText <- ToString (index valueAsArray 0) ;;
          secondText <- ToString (index valueAsArray 1) ;;
          let script :=
            "doc['" ++ fieldText ++ "'] >= doc['" ++ firstText
            ++ "'] && doc['" ++ fieldText ++ "'] <= doc['" ++ secondText
            ++ "']" in
          Return (scriptFilter
                    (if op =? "notBetween" then "!(" ++ script ++ ")" else script))
        else Return JsFalse
      else if oneOf op ["contains"; "doesNotContain"; "beginsWith";
                        "doesNotBeginWith"; "endsWith"; "doesNotEndWith"] then
        valueForScript <- escapeSQ v ;;
        if negb (truthy valueForScript) then Return JsFalse
        else
          fieldText <- ToString fieldForScript ;;
          valueText <- ToString valueForScript ;;
          Return (scriptFilter (getTextScript fieldText op valueText))
      else valueSwitch rule opts
  else valueSwitch rule opts.

(** The operators one of the two [switch] statements has a [case] for. *)
Definition supportedOperators : list string :=
  ["<"; "<="; ">"; ">="; "="; "!="; "null"; "notNull"; "in"; "notIn";
   "between"; "notBetween"; "contains"; "doesNotContain"; "beginsWith";
   "doesNotBeginWith"; "endsWith"; "doesNotEndWith"].

End ElasticSearch.

(* ================================================================== *)
(** * Part I.e  An integer-only instance of the helpers *)
(* ================================================================== *)

(** The processor is run on concrete rules below.  This instance of the
    section variables covers what those runs need: comma-separated lists,
    and numeric literals that are decimal integers. *)
Module IntHelpers.

Definition isSpace (c : ascii) : bool := Ascii.eqb c " "%char.
Definition isDigit (c : ascii) : bool :=
  let n := nat_of_ascii c in ((48 <=? n)%nat && (n <=? 57)%nat)%bool.

Fixpoint trimStart (s : string) : string :=
  match s with
  | String c s' => if isSpace c then trimStart s' else s
  | EmptyString => EmptyString
  end.

Fixpoint trimEnd (s : string) : string :=
  match s with
  | EmptyString => EmptyString
  | String c s' =>
      match trimEnd s' with
      | EmptyString => if isSpace c then EmptyString else String c EmptyString
      | t => String c t
      end
  end.

Definition trim (s : string) : string := trimEnd (trimStart s).

(** [s.split(',')] *)
Fixpoint splitComma (s : string) : list string :=
  match s with
  | EmptyString => [EmptyString]
  | String c s' =>
      if Ascii.eqb c ","%char then EmptyString :: splitComma s'
      else match splitComma s' with
           | [] => [String c EmptyString]
           | w :: ws => String c w :: ws
           end
  end.

Definition trimIfString (v : any) : any :=
  match v with VStr s => VStr (trim s) | _ => v end.

Definition toArray (v : any) : list any :=
  match v with
  | VArr l => map trimIfString l
  | VStr s =>
      map (fun w => VStr (trim w))
          (filter (fun w => negb (isEmptyString (trim w))) (splitComma s))
  | _ => []
  end.

Definition isValidValue (v : any) : bool :=
  match v with
  | VStr s => negb (isEmptyString s)
  | VNum n => negb (isNaN n)
  | _ => true
  end.

Fixpoint allDigits (s : string) : bool :=
  match s with
  | EmptyString => true
  | String c s' => (isDigit c && allDigits s')%bool
  end.

Definition unsignedPart (s : string) : string :=
  match s with
  | String c s' =>
      if (Ascii.eqb c "-"%char || Ascii.eqb c "+"%char)%bool then s' else s
  | EmptyString => EmptyString
  end.

Definition isIntegerLiteral (s : string) : bool :=
  let u := unsignedPart (trim s) in
  (negb (isEmptyString u) && allDigits u)%bool.

Definition shouldRenderAsNumber (v : any) (parseNumbers0 : option bool) : bool :=
  match parseNumbers0 with
  | Some true =>
      match v with
      | VNum _ => true
      | VStr s => isIntegerLiteral s
      | _ => false
      end
  | _ => false
  end.

Fixpoint digitsValue (s : string) (acc : Z) : Z :=
  match s with
  | EmptyString => acc
  | String c s' => digitsValue s' (10 * acc + Z.of_nat (nat_of_ascii c - 48))%Z
  end.

Definition ofZ (z : Z) : spec_float := binary_normalize 53 1024 z 0 false.

Definition parseFloat (v : any) : spec_float :=
  match v with
  | VNum n => n
  | VStr s =>
      if isIntegerLiteral s then
        let t := trim s in
        let m := digitsValue (unsignedPart t) 0 in
        match t with
        | String c _ => if Ascii.eqb c "-"%char then ofZ (- m) else ofZ m
        | EmptyString => S754_nan
        end
      else S754_nan
  | _ => S754_nan
  end.

Fixpoint natDigits (fuel n : nat) (acc : string) : string :=
  match fuel with
  | O => acc
  | S fuel' =>
      let d := String (ascii_of_nat (48 + Nat.modulo n 10)) acc in
      if (n <? 10)%nat then d else natDigits fuel' (Nat.div n 10) d
  end.

(** Integers print in decimal; the other cases are the special values. *)
Definition numToString (n : spec_float) : string :=
  match n with
  | S754_nan => "NaN"
  | S754_infinity false => "Infinity"
  | S754_infinity true => "-Infinity"
  | S754_zero _ => "0"
  | S754_finite s m e =>
      let k := Z.to_nat (Z.shiftl (Zpos m) e) in
      (if s then "-" else EmptyString) ++ natDigits (S k) k EmptyString
  end.

Definition process : RuleType -> ValueProcessorOptions -> outcome any :=
  defaultRuleProcessorElasticSearch
    toArray isValidValue shouldRenderAsNumber parseFloat numToString.

End IntHelpers.


(* ================================================================== *)
(** * Part I.f  Paths and the drop predicate of [useRuleDnD] *)
(* ================================================================== *)

(** [type Path = number[]]: the child index to descend at each depth. *)
Definition Path := list nat.

(** Modelled from the spec: [getParentPath], exported by the core package
    and not part of the sources at hand.  Section 4.1: drop the last
    element; the parent of the empty path is the empty path. *)
Definition getParentPath (path : Path) : Path := removelast path.

(** Modelled from the spec: [isAncestor], same origin.  Section 4.1:
    true iff the first path is a strict prefix of the second. *)
Fixpoint isAncestor (maybeAncestor path : Path) : bool :=
  match maybeAncestor, path with
  | [], [] => false
  | [], _ :: _ => true
  | _ :: _, [] => false
  | a :: maybeAncestor', b :: path' =>
      ((a =? b)%nat && isAncestor maybeAncestor' path')%bool
  end.

(** Modelled from the spec: [pathsAreEqual], same origin.  Section 4.1:
    element-wise equality. *)
Fixpoint pathsAreEqual (path1 path2 : Path) : bool :=
  match path1, path2 with
  | [], [] => true
  | a :: path1', b :: path2' => ((a =? b)%nat && pathsAreEqual path1' path2')%bool
  | _, _ => false
  end.

(** [path[path.length - 1]]: [undefined] on the empty path. *)
Fixpoint lastIndex (path : Path) : option nat :=
  match path with
  | [] => None
  | [i] => Some i
  | _ :: path' => lastIndex path'
  end.

(** [hoverIndex === itemIndex - k] on possibly undefined indices:
    [undefined - k] is [NaN], which equals nothing; [undefined ===
    undefined] holds (the case [k = 0] is written without subtraction in
    the source). *)
Definition indexEqMinus (hoverIndex itemIndex : option nat) (k : Z) : bool :=
  match hoverIndex, itemIndex with
  | Some h, Some i => (Z.of_nat h =? Z.of_nat i - k)%Z
  | _, _ => false
  end.

Definition indexEq (hoverIndex itemIndex : option nat) : bool :=
  match hoverIndex, itemIndex with
  | Some h, Some i => (h =? i)%nat
  | None, None => true
  | _, _ => false
  end.

Record DraggedItem := mkDraggedItem {
  item_path : Path
}.

Definition isTrue (b : option bool) : bool :=
  match b with Some true => true | _ => false end.

(** The [canDrop] callback that [useRuleDnD] hands to [useDrop] (lines
    54-71).  [canDrop] is the optional user predicate of the context,
    [path] the path of the hovered rule. *)
Definition useRuleDnD_canDrop
    (canDrop : option (DraggedItem -> Path -> bool))
    (independentCombinators : option bool)
    (path : Path) (item : DraggedItem) : bool :=
  if match canDrop with
     | Some userCanDrop => negb (userCanDrop item path)
     | None => false
     end
  then false
  else
    let parentHoverPath := getParentPath path in
    let parentItemPath := getParentPath (item_path item) in
    let hoverIndex := lastIndex path in
    let itemIndex := lastIndex (item_path item) in
    negb (isAncestor (item_path item) path
          || (pathsAreEqual parentHoverPath parentItemPath
              && (indexEq hoverIndex itemIndex
                  || indexEqMinus hoverIndex itemIndex 1
                  || (isTrue independentCombinators
                      && indexEqMinus hoverIndex itemIndex 2))))%bool.

(* ================================================================== *)
(** * Part II.a  The query tree *)
(* ================================================================== *)

(** The attributes of a group other than its children.  A group in
    combinator form has [combinator = Some c]; a group in
    independent-combinator (IC) form has none. *)
Record GroupProps := mkGroupProps {
  g_id : option string;
  combinator : option string;
  g_not : option bool;
  g_disabled : option bool
}.

(** An element of a [rules] array: a rule, a group, or (IC form only) a
    combinator string standing between two nodes.  The types
    [RuleGroupType] and [RuleGroupTypeIC] of the sources are the two
    shapes of [GroupNode]; [RuleGroupICArray] (types/ruleGroupsIC.ts)
    is the alternation stated by [alternates] below. *)
#[warnings="-register-all"]
Inductive RuleOrGroup : Type :=
| RuleNode (r : RuleType)
| CombinatorNode (c : string)
| GroupNode (g : GroupProps) (rules : list RuleOrGroup).

Definition isNode (x : RuleOrGroup) : bool :=
  match x with CombinatorNode _ => false | _ => true end.

Definition isCombinator (x : RuleOrGroup) : bool :=
  match x with CombinatorNode _ => true | _ => false end.


(** A query is an IC tree when its root has no [combinator]. *)
Definition isRuleGroupTypeIC (query : RuleOrGroup) : bool :=
  match query with
  | GroupNode g _ => match combinator g with None => true | Some _ => false end
  | _ => false
  end.

Definition isNil {A} (l : list A) : bool :=
  match l with [] => true | _ :: _ => false end.

(** Modelled from the spec: [findPath], not part of the sources at hand
    (its signature is in website/docs/utils/misc.mdx).  Sections 3 and 9:
    descend from the root by the child indices of the path; the empty
    path is the root; [None] when a prefix does not address a group or
    an index is out of range. *)
Fixpoint findPath (path : Path) (query : RuleOrGroup) : option RuleOrGroup :=
  match path with
  | [] => Some query
  | i :: path' =>
      match query with
      | GroupNode _ rules =>
          match nth_error rules i with
          | Some child => findPath path' child
          | None => None
          end
      | _ => None
      end
  end.

(** Modelled from the spec: the assignment [rules[i] = x] of one child,
    for [i] in range (section 9, copy-on-write at each path segment). *)
Definition setNth {A} (i : nat) (x : A) (l : list A) : list A :=
  firstn i l ++ x :: skipn (S i) l.

(** Modelled from the spec: the copy-on-write descent shared by the four
    structural operations (section 9, "immutable update via structural
    sharing").  [f] is applied to the element at [path]; every group on
    the way is rebuilt around the new child.  [None] is the addressing
    failure that the operations turn into a no-op. *)
Fixpoint modifyAt (f : RuleOrGroup -> option RuleOrGroup)
    (path : Path) (query : RuleOrGroup) : option RuleOrGroup :=
  match path with
  | [] => f query
  | i :: path' =>
      match query with
      | GroupNode g rules =>
          match nth_error rules i with
          | Some child =>
              match modifyAt f path' child with
              | Some child' => Some (GroupNode g (setNth i child' rules))
              | None => None
              end
          | None => None
          end
      | _ => None
      end
  end.

Definition orElse {A} (o : option A) (d : A) : A :=
  match o with Some a => a | None => d end.

(* ================================================================== *)
(** * Part II.b  add, remove, update, move *)
(* ================================================================== *)

(** Modelled from the spec: [defaultCombinators] (named in misc.mdx),
    by name. *)
Definition defaultCombinators : list string := ["and"; "or"].

(** Modelled from the spec: the combinator string put next to a new item
    of an IC group (section 4.2): the first of [opts.combinators], else
    the first default combinator. *)
Definition firstCombinator (combinators : option (list string)) : string :=
  match combinators with
  | Some (c :: _) => c
  | _ => hd "and" defaultCombinators
  end.

Record AddOptions := mkAddOptions {
  add_combinators : option (list string)
}.

(** Modelled from the spec: the new last child of a group (section 4.2,
    add); in an IC tree a combinator string goes before it when the
    group has children already. *)
Definition appendChild (ic : bool) (comb : string) (ruleOrGroup : RuleOrGroup)
    (parent : RuleOrGroup) : option RuleOrGroup :=
  match parent with
  | GroupNode g rules =>
      Some (GroupNode g
              (rules
               ++ (if (ic && negb (isNil rules))%bool
                   then [CombinatorNode comb] else [])
               ++ [ruleOrGroup])%list)
  | _ => None
  end.

(** Modelled from the spec: [add], not part of the sources at hand.  Its
    signature and purpose are in misc.mdx: it adds a rule or group, and
    an independent combinator if necessary, to keep the query valid.
    Section 4.2 with the convention of section 9: [path] addresses the
    parent group and the new item becomes its last child; a path that
    does not address a group leaves the query unchanged. *)
Definition add (query ruleOrGroup : RuleOrGroup) (path : Path)
    (opts : AddOptions) : RuleOrGroup :=
  orElse (modifyAt (appendChild (isRuleGroupTypeIC query)
                      (firstCombinator (add_combinators opts)) ruleOrGroup)
            path query)
         query.

(** Modelled from the spec: deleting child [i] of a group (section 4.2,
    remove).  In an IC tree the adjacent combinator goes as well: the
    following one for the first child, the preceding one for any other.
    Only a rule or a group can be deleted. *)
Definition removeChild (ic : bool) (i : nat) (parent : RuleOrGroup)
    : option RuleOrGroup :=
  match parent with
  | GroupNode g rules =>
      match nth_error rules i with
      | Some x =>
          if isNode x then
            Some (GroupNode g
                    (if ic then
                       if (i =? 0)%nat then skipn 2 rules
                       else (firstn (i - 1) rules ++ skipn (S i) rules)%list
                     else (firstn i rules ++ skipn (S i) rules)%list))
          else None
      | None => None
      end
  | _ => None
  end.

(** Modelled from the spec: [remove], not part of the sources at hand.
    Its signature and purpose are in misc.mdx: it removes a rule or
    group, and the adjacent independent combinator.  Section 4.2.  The
    root has no parent to be deleted from: the empty path leaves the
    query unchanged. *)
Definition remove (query : RuleOrGroup) (path : Path) : RuleOrGroup :=
  match lastIndex path with
  | None => query
  | Some i =>
      orElse (modifyAt (removeChild (isRuleGroupTypeIC query) i)
                (getParentPath path) query)
             query
  end.

(** Modelled from the spec: a property together with its new value
    ([prop], [value] of [update]), over the attributes of the data model
    of section 3. *)
Inductive PropValue :=
| SetField (f : string)
| SetOperator (o : string)
| SetValue (v : any)
| SetValueSource (vs : ValueSource)
| SetCombinator (c : string)
| SetNot (b : bool)
| SetDisabled (b : bool).

Record UpdateOptions := mkUpdateOptions {
  resetOnFieldChange : option bool;
  resetOnOperatorChange : option bool;
  getRuleDefaultOperator : string -> string;
  getValueSources : string -> string -> list ValueSource;
  getRuleDefaultValue : RuleType -> any
}.

Definition withDefault (o : option bool) (d : bool) : bool :=
  match o with Some b => b | None => d end.

Definition ValueSource_eqb (a b : ValueSource) : bool :=
  match a, b with
  | VSvalue, VSvalue | VSfield, VSfield => true
  | _, _ => false
  end.

Definition setRuleValue (r : RuleType) (v : any) : RuleType :=
  mkRule (id r) (field r) (operator r) v (valueSource r) (disabled r).

(** Modelled from the spec: a rule with one property set (section 4.2,
    update): a new field resets operator and value when
    [resetOnFieldChange] (default true), a new operator resets the value
    when [resetOnOperatorChange] (default false), a value source other
    than the current one re-derives the value. *)
Definition updateRule (pv : PropValue) (opts : UpdateOptions) (r : RuleType)
    : RuleType :=
  match pv with
  | SetField f =>
      if withDefault (resetOnFieldChange opts) true then
        let r1 := mkRule (id r) f (getRuleDefaultOperator opts f) (value r)
                    (valueSource r) (disabled r) in
        setRuleValue r1 (getRuleDefaultValue opts r1)
      else mkRule (id r) f (operator r) (value r) (valueSource r) (disabled r)
  | SetOperator o =>
      let r1 := mkRule (id r) (field r) o (value r) (valueSource r) (disabled r) in
      if withDefault (resetOnOperatorChange opts) false
      then setRuleValue r1 (getRuleDefaultValue opts r1)
      else r1
  | SetValue v => setRuleValue r v
  | SetValueSource vs =>
      let r1 := mkRule (id r) (field r) (operator r) (value r) (Some vs)
                  (disabled r) in
      let old := match valueSource r with Some s => s | None => VSvalue end in
      if ValueSource_eqb old vs then r1
      else setRuleValue r1 (getRuleDefaultValue opts r1)
  | SetDisabled b =>
      mkRule (id r) (field r) (operator r) (value r) (valueSource r) (Some b)
  | SetCombinator _ | SetNot _ => r
  end.

(** Modelled from the spec: the attributes of a group with one property
    set. *)
Definition updateGroupProps (pv : PropValue) (g : GroupProps) : GroupProps :=
  match pv with
  | SetCombinator c => mkGroupProps (g_id g) (Some c) (g_not g) (g_disabled g)
  | SetNot b => mkGroupProps (g_id g) (combinator g) (Some b) (g_disabled g)
  | SetDisabled b => mkGroupProps (g_id g) (combinator g) (g_not g) (Some b)
  | _ => g
  end.

(** Modelled from the spec: the element at the path with the property
    set (section 4.2, update); a combinator string of an IC group is
    replaced by a new combinator. *)
Definition updateElement (pv : PropValue) (opts : UpdateOptions)
    (x : RuleOrGroup) : option RuleOrGroup :=
  match x with
  | RuleNode r => Some (RuleNode (updateRule pv opts r))
  | GroupNode g rules => Some (GroupNode (updateGroupProps pv g) rules)
  | CombinatorNode _ =>
      match pv with
      | SetCombinator c => Some (CombinatorNode c)
      | _ => None
      end
  end.

(** Modelled from the spec: [update], not part of the sources at hand
    (signature in misc.mdx).  Section 4.2; [prop] and [value] are the
    single argument [pv].  An attribute the addressed node does not have
    (a combinator on a rule, a field on a group) leaves the node as it
    is; changing the value source to a different one re-derives the
    value. *)
Definition update (query : RuleOrGroup) (pv : PropValue) (path : Path)
    (opts : UpdateOptions) : RuleOrGroup :=
  orElse (modifyAt (updateElement pv opts) path query) query.

Record MoveOptions := mkMoveOptions {
  clone : option bool;
  move_combinators : option (list string)
}.

(** Modelled from the spec: the new child at index [k] of a group ([k] at
    most the number of children), for move.  Section 4.2 gives move the
    combinator bookkeeping of add, and add's rule is that a combinator
    string is inserted before the new item when the parent's rules array
    is not empty. *)
Definition insertChild (ic : bool) (comb : string) (ruleOrGroup : RuleOrGroup)
    (k : nat) (parent : RuleOrGroup) : option RuleOrGroup :=
  match parent with
  | GroupNode g rules =>
      if (List.length rules <? k)%nat then None
      else
        let added :=
          if (ic && negb (isNil rules))%bool
          then [CombinatorNode comb; ruleOrGroup]
          else [ruleOrGroup] in
        Some (GroupNode g (firstn k rules ++ added ++ skipn k rules)%list)
  | _ => None
  end.

(** Modelled from the spec: a destination is a position of the tree when
    its parent path addresses a group and its last index is at most the
    number of children of that group (section 4.2, edge-case policy: a
    path that does not resolve makes the operation a no-op). *)
Definition addressesPosition (path : Path) (query : RuleOrGroup) : bool :=
  match lastIndex path with
  | Some k =>
      match findPath (getParentPath path) query with
      | Some (GroupNode _ rules) => (k <=? List.length rules)%nat
      | _ => false
      end
  | None => false
  end.

(** Modelled from the spec: [newPath] read against the tree without the
    source node (section 4.2, the path-invalidation hazard).  [d] is the
    number of elements deleted with the source (1, or 2 in an IC tree).
    Where [newPath] passes the level of the source at a later sibling,
    that sibling has moved down by [d]; a position after the source has
    moved down by the number of deleted elements before it, at most
    [d].  [None] when [newPath] passes through a deleted element. *)
Fixpoint reinterpretPath (d : nat) (oldPath newPath : Path) : option Path :=
  match oldPath, newPath with
  | [i], j :: rest =>
      if (i <? j)%nat then
        if isNil rest then Some [j - Nat.min j d]
        else if (j <? d)%nat then None
        else Some ((j - d) :: rest)
      else Some newPath
  | a :: oldPath', b :: newPath' =>
      if (a =? b)%nat
      then option_map (cons a) (reinterpretPath d oldPath' newPath')
      else Some newPath
  | _, _ => Some newPath
  end.

Section Move.

(** The identifier given to a copy; how identifiers are generated is
    left open. *)
Variable regenerateID : option string -> option string.

(** Modelled from the spec: a copy with new identifiers throughout
    (section 4.2, [opts.clone]). *)
Fixpoint regenerateIDs (x : RuleOrGroup) : RuleOrGroup :=
  match x with
  | RuleNode r =>
      RuleNode (mkRule (regenerateID (id r)) (field r) (operator r) (value r)
                  (valueSource r) (disabled r))
  | CombinatorNode c => CombinatorNode c
  | GroupNode g rules =>
      GroupNode (mkGroupProps (regenerateID (g_id g)) (combinator g) (g_not g)
                   (g_disabled g))
                (map regenerateIDs rules)
  end.

(** Modelled from the spec: [move], not part of the sources at hand
    (signature in misc.mdx).  Section 4.2: the node at [oldPath] is
    deleted as by [remove] (unless cloned), [newPath] is read against
    the tree without it, and the node (or its copy) becomes the child
    at the last index of that path in the group its parent path
    addresses.  The query is returned unchanged when [oldPath] is the
    root or addresses no rule or group, when [newPath] lies inside the
    node being moved, and when [newPath] is not a position of the
    tree. *)
Definition move (query : RuleOrGroup) (oldPath newPath : Path)
    (opts : MoveOptions) : RuleOrGroup :=
  let ic := isRuleGroupTypeIC query in
  match lastIndex oldPath with
  | None => query
  | Some i =>
      if isAncestor oldPath newPath then query
      else if negb (addressesPosition newPath query) then query
      else
        match findPath oldPath query with
        | Some x =>
            if isNode x then
              let cloning := isTrue (clone opts) in
              let item := if cloning then regenerateIDs x else x in
              let without :=
                if cloning then Some query
                else modifyAt (removeChild ic i) (getParentPath oldPath) query in
              let newPath' :=
                if cloning then Some newPath
                else reinterpretPath (if ic then 2 else 1) oldPath newPath in
              match newPath', without with
              | Some destination, Some query1 =>
                  match lastIndex destination with
                  | Some k =>
                      orElse (modifyAt
                                (insertChild ic
                                   (firstCombinator (move_combinators opts))
                                   item k)
                                (getParentPath destination) query1)
                             query
                  | None => query
                  end
              | _, _ => query
              end
            else query
        | None => query
        end
  end.

End Move.

(** The IC invariant of a [rules] array, as the specification states it:
    the length is 0 or odd, even indices hold nodes, odd indices hold
    combinator strings, and the first and last elements are nodes. *)
Definition alternates (rules : list RuleOrGroup) : Prop :=
  (List.length rules = 0 \/ Nat.odd (List.length rules) = true)
  /\ (forall i x, nth_error rules i = Some x ->
        if Nat.even i then isNode x = true else isCombinator x = true)
  /\ (forall x, hd_error rules = Some x -> isNode x = true)
  /\ (forall x, nth_error rules (List.length rules - 1) = Some x -> isNode x = true).

(** Every group of the tree, at whatever path, has alternating rules. *)
Definition ICinvariant (query : RuleOrGroup) : Prop :=
  forall path g rules,
    findPath path query = Some (GroupNode g rules) -> alternates rules.

(** The structural operations of the invariant claim. *)
Inductive StructuralOp :=
| OpAdd (ruleOrGroup : RuleOrGroup) (path : Path) (opts : AddOptions)
| OpRemove (path : Path)
| OpMove (oldPath newPath : Path) (opts : MoveOptions).

Definition applyOp (regenerateID : option string -> option string)
    (query : RuleOrGroup) (op : StructuralOp) : RuleOrGroup :=
  match op with
  | OpAdd x path opts => add query x path opts
  | OpRemove path => remove query path
  | OpMove oldPath newPath opts => move regenerateID query oldPath newPath opts
  end.

Definition applyOps (regenerateID : option string -> option string)
    (query : RuleOrGroup) (ops : list StructuralOp) : RuleOrGroup :=
  fold_left (applyOp regenerateID) ops query.

(** An added item is well-typed for an IC tree when it is a rule or a
    group that satisfies the invariant itself. *)
Definition addsICNodes (op : StructuralOp) : Prop :=
  match op with
  | OpAdd x _ _ => isNode x = true /\ ICinvariant x
  | _ => True
  end.

(* ================================================================== *)
(** * Part II.c  The SQL walk of formatQuery *)
(* ================================================================== *)

(** [ExportFormat] (types/importExport.ts). *)
Inductive ExportFormat :=
| json | sql | json_without_ids | parameterized | parameterized_named
| mongodb | cel | jsonlogic | spel | elasticsearch.

(** The documented defaults of [fallbackExpression] (importExport.ts,
    lines 74-79); no default is documented for the other formats. *)
Definition defaultFallbackExpression (format : ExportFormat) : string :=
  match format with
  | sql | parameterized | parameterized_named => "(1 = 1)"
  | mongodb => "$and:[{$expr:true}]"
  | _ => EmptyString
  end.

(** The options of [FormatQueryOptions] that the walk reads.  The
    validator is taken by its verdict on each group. *)
Record FormatQueryOptions := mkFormatQueryOptions {
  ruleProcessor : option (RuleType -> string);
  validator : option (RuleOrGroup -> bool);
  fallbackExpression : option string;
  placeholderFieldName : option string;
  placeholderOperatorName : option string
}.

Definition defaultPlaceholder : string := "~".

Section FormatQuery.

(** What differs between string formats: the default rule processor,
    the combinator syntax that joins the fragments of a group (each
    fragment comes with the combinator that precedes it) and the
    negation syntax. *)
Variable defaultRuleProcessor : RuleType -> string.
Variable joinFragments : list (string * string) -> string.
Variable negate : string -> string.

(** Modelled from the spec: the fallback expression in force, the option
    or else the default of the format. *)
Definition fallbackFor (format : ExportFormat) (opts : FormatQueryOptions)
    : string :=
  match fallbackExpression opts with
  | Some s => s
  | None => defaultFallbackExpression format
  end.

(** Modelled from the spec: a rule in the walk (section 4.4).  It is
    skipped when its field or operator is the placeholder (default "~");
    the empty fragment is the omission signal. *)
Definition formatRule (opts : FormatQueryOptions) (r : RuleType) : string :=
  let phf := match placeholderFieldName opts with
             | Some s => s | None => defaultPlaceholder end in
  let pho := match placeholderOperatorName opts with
             | Some s => s | None => defaultPlaceholder end in
  if ((field r =? phf) || (operator r =? pho))%bool then EmptyString
  else match ruleProcessor opts with
       | Some process => process r
       | None => defaultRuleProcessor r
       end.

(** Modelled from the spec: the walk of [formatQuery] for a string
    format, not part of the sources at hand.  Section 4.4: depth-first;
    a group formats its children, drops the omitted ones, joins the
    rest with the combinator syntax and wraps the result in the
    negation syntax when [not] is set; a group with no usable child,
    and a group the validator marks invalid, is rendered as the
    fallback expression.  In an IC group the combinator before a
    fragment is the string that precedes it in [rules]. *)
Fixpoint formatGroup (format : ExportFormat) (opts : FormatQueryOptions)
    (query : RuleOrGroup) : string :=
  match query with
  | RuleNode r => formatRule opts r
  | CombinatorNode _ => EmptyString
  | GroupNode g rules =>
      if match validator opts with
         | Some valid => negb (valid query)
         | None => false
         end
      then fallbackFor format opts
      else
        let fragments :=
          (fix walk (comb : string) (l : list RuleOrGroup)
             : list (string * string) :=
             match l with
             | [] => []
             | x :: l' =>
                 match x with
                 | CombinatorNode c => walk c l'
                 | _ =>
                     let s := formatGroup format opts x in
                     if isEmptyString s then walk comb l'
                     else (comb, s) :: walk comb l'
                 end
             end)
            (match combinator g with Some c => c | None => "and" end)
            rules in
        if isNil fragments then fallbackFor format opts
        else if isTrue (g_not g) then negate (joinFragments fragments)
        else joinFragments fragments
  end.

(** [formatQuery(query, { format: 'sql', ...opts })] *)
Definition formatQuery_sql (query : RuleOrGroup) (opts : FormatQueryOptions)
    : string :=
  formatGroup sql opts query.

End FormatQuery.

(** [{ combinator: c, rules }] and [{ rules }] *)
Definition ruleGroup (c : string) (rules : list RuleOrGroup) : RuleOrGroup :=
  GroupNode (mkGroupProps None (Some c) None None) rules.

Definition ruleGroupIC (rules : list RuleOrGroup) : RuleOrGroup :=
  GroupNode (mkGroupProps None None None None) rules.

Definition defaultFormatOptions : FormatQueryOptions :=
  mkFormatQueryOptions None None None None None.

(* ================================================================== *)
(** * Part I.g  The merged context of [useMergedContext] *)
(* ================================================================== *)

(** Props and context are objects: property lists in insertion order.
    What they hold (booleans, class names, components, translations) is
    only read, passed on and copied here, so any value stands for it. *)
Definition JsObject := list (string * any).

(** [o.k]: [undefined] when [o] has no property [k]. *)
Fixpoint getProp (o : JsObject) (k : string) : any :=
  match o with
  | [] => VUndefined
  | (k', v) :: o' => if k' =? k then v else getProp o' k
  end.

(** [k in o] *)
Definition hasProp (o : JsObject) (k : string) : bool :=
  existsb (fun kv => fst kv =? k) o.

(** [o[k] = v]: in place when [o] has the property, else at the end. *)
Fixpoint setProp (k : string) (v : any) (o : JsObject) : JsObject :=
  match o with
  | [] => [(k, v)]
  | (k', v') :: o' =>
      if k' =? k then (k, v) :: o' else (k', v') :: setProp k v o'
  end.

(** The own properties a spread copies: those of an object, none of
    [undefined] or [null].  (The sources of the spreads below are
    objects or [undefined] by their types.) *)
Definition ownProps (source : any) : JsObject :=
  match source with
  | VObj props => props
  | _ => []
  end.

(** [{ ...target, ...source }] *)
Definition spreadInto (target : JsObject) (source : any) : JsObject :=
  fold_left (fun t kv => setProp (fst kv) (snd kv) t) (ownProps source) target.

(** The properties left over by a rest pattern that takes [k] out. *)
Definition withoutProp (k : string) (o : JsObject) : JsObject :=
  filter (fun kv => negb (fst kv =? k)) o.

(** [c !== false] *)
Definition notStrictlyFalse (c : any) : bool :=
  match c with VBool false => false | _ => true end.

(** The keys the hook computes itself and takes out of the context. *)
Definition mergedKeys : list string :=
  ["controlClassnames"; "controlElements"; "debugMode"; "enableDragAndDrop";
   "enableMountQueryChange"; "translations"].

Section MergedContext.

(** [usePreferProp] (./usePreferProp), [mergeClassnames] and
    [mergeTranslations] (../utils), and the three defaults
    (../defaults, ../components). *)
Variable usePreferProp : bool -> any -> any -> bool.
Variable mergeClassnames : any -> any -> any -> any.
Variable mergeTranslations : any -> any -> any -> any.
Variable defaultControlClassnames : any.
Variable defaultControlElements : JsObject.
Variable defaultTranslations : any.

(** [useMergedContext(props)], with the value of
    [useContext(QueryBuilderContext)] as second argument; [useMemo]
    returns what its callback returns. *)
Definition useMergedContext (props rqbContext : JsObject) : JsObject :=
  let enableMountQueryChange :=
    usePreferProp true (getProp props "enableMountQueryChange")
      (getProp rqbContext "enableMountQueryChange") in
  let enableDragAndDrop :=
    (usePreferProp false (getProp props "enableDragAndDrop")
       (getProp rqbContext "enableDragAndDrop")
     && notStrictlyFalse (getProp rqbContext "enableDragAndDrop"))%bool in
  let debugMode :=
    usePreferProp false (getProp props "debugMode")
      (getProp rqbContext "debugMode") in
  let controlClassnames :=
    mergeClassnames defaultControlClassnames
      (getProp rqbContext "controlClassnames")
      (getProp props "controlClassnames") in
  let controlElements :=
    spreadInto
      (spreadInto (spreadInto [] (VObj defaultControlElements))
         (getProp rqbContext "controlElements"))
      (getProp props "controlElements") in
  let translations :=
    mergeTranslations defaultTranslations
      (getProp rqbContext "translations") (getProp props "translations") in
  let otherContext := fold_right withoutProp rqbContext mergedKeys in
  spreadInto
    [("controlClassnames", controlClassnames);
     ("controlElements", VObj controlElements);
     ("debugMode", VBool debugMode);
     ("enableDragAndDrop", VBool enableDragAndDrop);
     ("enableMountQueryChange", VBool enableMountQueryChange);
     ("translations", translations)]
    (VObj otherContext).

End MergedContext.

(** An object has each key once. *)
Definition uniqueKeys (o : JsObject) : Prop := NoDup (map fst o).

(* ================================================================== *)
(** * Part I.h  The date range of the custom value editor *)
(* ================================================================== *)

(** [CustomValueEditor] (website/docs/tips/custom-with-fallback.mdx)
    keeps a date range in the rule's value as a comma-separated pair of
    strings.  Its change handler writes
    [[!s ? '' : format(s, dateFormat), !e ? '' : format(e, dateFormat)].join(',')];
    [writeDateRange] is the join, on the two strings. *)
Definition writeDateRange (startText endText : string) : string :=
  startText ++ "," ++ endText.

(** [const [startDate, endDate] = props.value.split(',')] *)
Definition readDateRange (v : string) : any * any :=
  let parts := map VStr (IntHelpers.splitComma v) in
  (index parts 0, index parts 1).

Fixpoint hasNoComma (s : string) : bool :=
  match s with
  | EmptyString => true
  | String c s' => (negb (Ascii.eqb c ","%char) && hasNoComma s')%bool
  end.

(* ================================================================== *)
(** * Part III.a  Facts about the Elasticsearch rule processor *)
(* ================================================================== *)

(** ** Comparison of doubles *)

Lemma SFcompare_antisym (a b : spec_float) :
  SFcompare b a = option_map CompOpp (SFcompare a b).
Proof.
  destruct a as [sa|sa| |sa ma ea], b as [sb|sb| |sb mb eb]; simpl;
    try reflexivity;
    try (destruct sa; reflexivity);
    try (destruct sb; reflexivity);
    try (destruct sa, sb; reflexivity).
  destruct sa, sb; simpl; try reflexivity;
    rewrite (Z.compare_antisym ea eb);
    destruct (ea ?= eb)%Z; simpl; try reflexivity;
    rewrite (Pos.compare_cont_antisym ma mb Eq); simpl;
    rewrite ?CompOpp_involutive; reflexivity.
Qed.

Lemma SFltb_asym (a b : spec_float) :
  SFltb a b = true -> SFltb b a = false.
Proof.
  unfold SFltb. rewrite (SFcompare_antisym a b).
  destruct (SFcompare a b) as [[ | | ]|]; simpl; congruence.
Qed.

Lemma SFcompare_defined (a b : spec_float) :
  isNaN a = false -> isNaN b = false -> SFcompare a b <> None.
Proof.
  destruct a, b; simpl; intros; congruence.
Qed.

Lemma SFleb_of_not_ltb (a b : spec_float) :
  isNaN a = false -> isNaN b = false ->
  SFltb b a = false -> SFleb a b = true.
Proof.
  intros Ha Hb. unfold SFltb, SFleb. rewrite (SFcompare_antisym a b).
  pose proof (SFcompare_defined a b Ha Hb) as Hd.
  destruct (SFcompare a b) as [[ | | ]|]; simpl; congruence.
Qed.

Lemma SFleb_of_ltb (a b : spec_float) : SFltb a b = true -> SFleb a b = true.
Proof.
  unfold SFltb, SFleb. destruct (SFcompare a b) as [[ | | ]|]; congruence.
Qed.

(** ** Strings *)

Lemma escapeChars_nonempty (s : string) :
  s <> EmptyString -> isEmptyString (escapeChars s) = false.
Proof.
  destruct s as [|c s]; [congruence|]. intros _. simpl.
  destruct (Ascii.eqb c quoteChar || Ascii.eqb c backslashChar)%bool; reflexivity.
Qed.

(** A string without quotes and backslashes is its own escaped form. *)
Fixpoint plainName (s : string) : bool :=
  match s with
  | EmptyString => true
  | String c s' =>
      (negb (Ascii.eqb c quoteChar || Ascii.eqb c backslashChar) && plainName s')%bool
  end.

Lemma escapeChars_plain (s : string) : plainName s = true -> escapeChars s = s.
Proof.
  induction s as [|c s IH]; simpl; [reflexivity|].
  destruct (Ascii.eqb c quoteChar || Ascii.eqb c backslashChar)%bool; simpl;
    [discriminate|]. intros H. rewrite IH; auto.
Qed.

Lemma oneOf_In (s : string) (l : list string) : oneOf s l = true <-> In s l.
Proof.
  unfold oneOf. rewrite existsb_exists. split.
  - intros [x [Hin Heq]]. apply String.eqb_eq in Heq. subst. exact Hin.
  - intros Hin. exists s. split; [exact Hin | apply String.eqb_refl].
Qed.

Lemma existsb_not_string_false (l : list any) :
  forallb isTString l = true -> existsb (fun x => negb (isTString x)) l = false.
Proof.
  induction l as [|x l IH]; simpl; [reflexivity|].
  intros H. apply andb_true_iff in H. destruct H as [Hx Hl].
  rewrite Hx, (IH Hl). reflexivity.
Qed.

Lemma existsb_not_string_false_inv (l : list any) :
  existsb (fun x => negb (isTString x)) l = false -> forallb isTString l = true.
Proof.
  induction l as [|x l IH]; simpl; [reflexivity|].
  intros H. apply orb_false_iff in H. destruct H as [Hx Hl].
  apply negb_false_iff in Hx. rewrite Hx, (IH Hl). reflexivity.
Qed.

(** Replace [oneOf op l = true] by the cases [op = x] for [x] in [l]. *)
Ltac cases_of_operator H :=
  apply oneOf_In in H; simpl in H;
  repeat (destruct H as [H|H]; [symmetry in H|]); try contradiction.

Section ElasticSearchFacts.

Variable toArray : any -> list any.
Variable isValidValue : any -> bool.
Variable shouldRenderAsNumber : any -> option bool -> bool.
Variable parseFloat : any -> spec_float.
Variable numToString : spec_float -> string.

Let process :=
  defaultRuleProcessorElasticSearch
    toArray isValidValue shouldRenderAsNumber parseFloat numToString.

(** C3.  A rule whose value source is "field", whose value is a
    non-empty string and whose operator is one of =, !=, <, <=, >, >=
    is rendered as the scripted comparison
    [{bool: {filter: {script: {script: "doc['F'] OP doc['V']"}}}}], where
    OP is the operator with = written ==, and F and V are the field and
    the value with quotes and backslashes escaped; for names without
    such characters F and V are the field and the value themselves.
    ([toArray] is assumed to map a string to a list of strings.) *)
Theorem field_source_comparison_is_scripted :
  forall (rule : RuleType) (opts : ValueProcessorOptions) (s : string),
    valueSource rule = Some VSfield ->
    value rule = VStr s ->
    s <> EmptyString ->
    oneOf (operator rule) ["="; "!="; "<"; "<="; ">"; ">="] = true ->
    forallb isTString (toArray (VStr s)) = true ->
    let operatorForScript :=
      if operator rule =? "=" then "==" else operator rule in
    process rule opts =
      Return (scriptFilter ("doc['" ++ escapeChars (field rule) ++ "'] "
                            ++ operatorForScript
                            ++ " doc['" ++ escapeChars s ++ "']"))
    /\ (plainName (field rule) = true -> plainName s = true ->
        process rule opts =
          Return (scriptFilter ("doc['" ++ field rule ++ "'] "
                                ++ operatorForScript
                                ++ " doc['" ++ s ++ "']"))).
Proof.
  intros rule opts s Hvs Hv Hs Hop Hstr op'.
  assert (Hmain : process rule opts =
      Return (scriptFilter ("doc['" ++ escapeChars (field rule) ++ "'] "
                            ++ op' ++ " doc['" ++ escapeChars s ++ "']"))).
  { subst op' process. unfold defaultRuleProcessorElasticSearch.
    rewrite Hvs, Hv. simpl isFieldSource. cbv iota.
    rewrite (existsb_not_string_false _ Hstr).
    assert (Hop' : oneOf (operator rule) ["="; "!="; ">"; ">="; "<"; "<="] = true).
    { apply oneOf_In. apply oneOf_In in Hop. simpl in *. tauto. }
    simpl escapeSQ. unfold bind. rewrite Hop'.
    simpl truthy. rewrite (escapeChars_nonempty s Hs). reflexivity. }
  split; [exact Hmain|].
  intros Hf Hp. rewrite Hmain.
  rewrite (escapeChars_plain _ Hf), (escapeChars_plain _ Hp). reflexivity.
Qed.

(** C10.  With value source "field", a value whose array view
    [toArray value] has an element that is not a string makes the
    processor return [false]; no script is produced. *)
Theorem field_source_non_string_omitted :
  forall (rule : RuleType) (opts : ValueProcessorOptions) (x : any),
    valueSource rule = Some VSfield ->
    In x (toArray (value rule)) ->
    typeof x <> TString ->
    process rule opts = Return JsFalse.
Proof.
  intros rule opts x Hvs Hin Hty.
  subst process. unfold defaultRuleProcessorElasticSearch.
  rewrite Hvs. simpl isFieldSource. cbv iota.
  assert (He : existsb (fun y => negb (isTString y)) (toArray (value rule)) = true).
  { apply existsb_exists. exists x. split; [exact Hin|].
    destruct x; simpl in *; congruence. }
  rewrite He. reflexivity.
Qed.

(** ** Omitted rules *)

Definition hasTwoValidValues (l : list any) : bool :=
  ((2 <=? List.length l)%nat
   && isValidValue (index l 0) && isValidValue (index l 1))%bool.

Lemma valueSwitch_unsupported (rule : RuleType) (opts : ValueProcessorOptions) :
  oneOf (operator rule) supportedOperators = false ->
  valueSwitch toArray isValidValue shouldRenderAsNumber parseFloat numToString
    rule opts = Return JsFalse.
Proof.
  intros H. unfold oneOf, supportedOperators in H. simpl in H.
  repeat (apply orb_false_iff in H; destruct H as [? H]).
  unfold valueSwitch, oneOf. simpl existsb.
  repeat match goal with E : (_ =? _) = false |- _ => rewrite E; clear E end.
  reflexivity.
Qed.

Lemma process_unsupported (rule : RuleType) (opts : ValueProcessorOptions) :
  oneOf (operator rule) supportedOperators = false ->
  process rule opts = Return JsFalse.
Proof.
  intros H. pose proof (valueSwitch_unsupported rule opts H) as Hv.
  subst process. unfold defaultRuleProcessorElasticSearch. rewrite Hv.
  unfold oneOf, supportedOperators in H. simpl in H.
  repeat (apply orb_false_iff in H; destruct H as [? H]).
  unfold oneOf. simpl existsb. simpl escapeSQ. unfold bind.
  repeat match goal with E : (_ =? _) = false |- _ => rewrite E; clear E end.
  simpl.
  destruct (isFieldSource (valueSource rule)); [|reflexivity].
  destruct (existsb _ _); reflexivity.
Qed.

Lemma process_in_empty (rule : RuleType) (opts : ValueProcessorOptions) :
  oneOf (operator rule) ["in"; "notIn"] = true ->
  toArray (value rule) = [] ->
  process rule opts = Return JsFalse.
Proof.
  intros Hop Hnil. subst process.
  unfold defaultRuleProcessorElasticSearch, valueSwitch. rewrite Hnil.
  cases_of_operator Hop; rewrite Hop; simpl;
    destruct (isFieldSource (valueSource rule)); reflexivity.
Qed.

Lemma index_string_of_forallb (l : list any) (i : nat) :
  forallb isTString l = true -> (i < List.length l)%nat ->
  exists s, index l i = VStr s.
Proof.
  revert i. induction l as [|x l IH]; simpl; intros i H Hi; [lia|].
  apply andb_true_iff in H. destruct H as [Hx Hl].
  destruct i as [|i].
  - destruct x; try discriminate. eexists; reflexivity.
  - apply (IH i Hl). lia.
Qed.

Lemma process_between_incomplete (rule : RuleType) (opts : ValueProcessorOptions) :
  (forall s, s <> EmptyString -> isValidValue (VStr s) = true) ->
  oneOf (operator rule) ["between"; "notBetween"] = true ->
  hasTwoValidValues (toArray (value rule)) = false ->
  process rule opts = Return JsFalse.
Proof.
  intros Hvalid Hop Htwo. subst process.
  assert (Hval : valueSwitch toArray isValidValue shouldRenderAsNumber
                   parseFloat numToString rule opts = Return JsFalse).
  { unfold valueSwitch. unfold hasTwoValidValues in Htwo. cbv zeta.
    rewrite Htwo. cases_of_operator Hop; rewrite Hop; reflexivity. }
  unfold defaultRuleProcessorElasticSearch. rewrite Hval.
  destruct (isFieldSource (valueSource rule)); [|reflexivity].
  destruct (existsb _ _) eqn:Hex; [reflexivity|].
  apply existsb_not_string_false_inv in Hex.
  assert (Htruthy :
    ((2 <=? List.length (toArray (value rule)))%nat
     && truthy (index (toArray (value rule)) 0)
     && truthy (index (toArray (value rule)) 1))%bool = false).
  { unfold hasTwoValidValues in Htwo.
    destruct (2 <=? List.length (toArray (value rule)))%nat eqn:Hlen;
      [|reflexivity].
    apply Nat.leb_le in Hlen.
    destruct (index_string_of_forallb _ 0 Hex) as [s0 Hs0]; [lia|].
    destruct (index_string_of_forallb _ 1 Hex) as [s1 Hs1]; [lia|].
    rewrite Hs0, Hs1 in *. simpl in *.
    destruct s0 as [|c0 s0]; [reflexivity|].
    destruct s1 as [|c1 s1]; [reflexivity|].
    rewrite (Hvalid (String c0 s0)), (Hvalid (String c1 s1)) in Htwo
      by discriminate.
    discriminate. }
  cbv zeta. rewrite Htruthy.
  cases_of_operator Hop; rewrite Hop; reflexivity.
Qed.

(** C4.  The processor returns [false], and does not throw, for a rule
    whose operator has no [case], for an in/notIn rule whose value
    array [toArray value] is empty, and for a between/notBetween rule
    whose value array lacks two valid first elements.  ([isValidValue]
    is assumed to accept every non-empty string.) *)
Theorem unsupported_or_incomplete_rule_omitted :
  forall (rule : RuleType) (opts : ValueProcessorOptions),
    (forall s, s <> EmptyString -> isValidValue (VStr s) = true) ->
    oneOf (operator rule) supportedOperators = false
    \/ (oneOf (operator rule) ["in"; "notIn"] = true
        /\ toArray (value rule) = [])
    \/ (oneOf (operator rule) ["between"; "notBetween"] = true
        /\ hasTwoValidValues (toArray (value rule)) = false) ->
    process rule opts = Return JsFalse.
Proof.
  intros rule opts Hvalid [H | [[Hop H] | [Hop H]]].
  - apply process_unsupported; assumption.
  - apply process_in_empty; assumption.
  - apply process_between_incomplete; assumption.
Qed.

(** ** Numbers *)

(** C8.  With [parseNumbers] set and a literal (non-field) value source,
    a string value that passes the numeric test
    [shouldRenderAsNumber _ true] is emitted as the number
    [parseFloat value] in the term of =, != and in the range of <, <=,
    >, >=; a string that fails the test is emitted unchanged. *)
Theorem parseNumbers_renders_term_and_range_value :
  forall (rule : RuleType) (s : string),
    isFieldSource (valueSource rule) = false ->
    value rule = VStr s ->
    let rendered :=
      if shouldRenderAsNumber (VStr s) (Some true)
      then VNum (parseFloat (VStr s)) else VStr s in
    let opts := mkOptions (Some true) in
    (oneOf (operator rule) ["<"; "<="; ">"; ">="] = true ->
     process rule opts =
       Return (rangeRule1 (field rule) (rangeOperatorMap (operator rule)) rendered))
    /\ (operator rule = "=" ->
        process rule opts = Return (termRule (field rule) rendered))
    /\ (operator rule = "!=" ->
        process rule opts =
          Return (obj1 "bool" (obj1 "must_not" (termRule (field rule) rendered)))).
Proof.
  intros rule s Hvs Hv rendered opts. subst process rendered opts.
  unfold defaultRuleProcessorElasticSearch, valueSwitch, valueRenderer.
  rewrite Hvs, Hv. simpl.
  split; [|split]; intros Hop.
  - rewrite Hop. reflexivity.
  - rewrite Hop. reflexivity.
  - rewrite Hop. reflexivity.
Qed.

(** C9.  For a between/notBetween rule with a literal value source
    whose first two array values are valid and both pass the numeric
    test, the range has [gte] and [lte] bounds that are the two parsed
    numbers in ascending order: bounds given in descending order are
    swapped.  The options, hence [parseNumbers], play no part. *)
Theorem between_numeric_bounds_ordered :
  forall (rule : RuleType) (opts : ValueProcessorOptions)
         (first second : any) (rest : list any),
    isFieldSource (valueSource rule) = false ->
    oneOf (operator rule) ["between"; "notBetween"] = true ->
    toArray (value rule) = first :: second :: rest ->
    isValidValue first = true ->
    isValidValue second = true ->
    shouldRenderAsNumber first (Some true) = true ->
    shouldRenderAsNumber second (Some true) = true ->
    exists lo hi : spec_float,
      process rule opts =
        Return (negateIfNotOp (operator rule)
                  (rangeRule2 (field rule) (VNum lo) (VNum hi)))
      /\ ((lo = parseFloat first /\ hi = parseFloat second)
          \/ (lo = parseFloat second /\ hi = parseFloat first))
      /\ SFltb hi lo = false
      /\ (SFltb (parseFloat second) (parseFloat first) = true ->
          lo = parseFloat second /\ hi = parseFloat first)
      /\ (isNaN (parseFloat first) = false ->
          isNaN (parseFloat second) = false -> SFleb lo hi = true).
Proof.
  intros rule opts first second rest Hvs Hop Harr Hv1 Hv2 Hn1 Hn2.
  destruct (SFltb (parseFloat second) (parseFloat first)) eqn:Hlt.
  - exists (parseFloat second), (parseFloat first).
    split; [|split; [|split; [|split]]].
    + subst process.
      unfold defaultRuleProcessorElasticSearch, valueSwitch.
      rewrite Hvs, Harr. cbv zeta. unfold index. simpl nth. simpl List.length.
      rewrite Hv1, Hv2, Hn1, Hn2, Hlt.
      cases_of_operator Hop; rewrite Hop; reflexivity.
    + right. split; reflexivity.
    + apply SFltb_asym. exact Hlt.
    + intros _. split; reflexivity.
    + intros _ _. apply SFleb_of_ltb. exact Hlt.
  - exists (parseFloat first), (parseFloat second).
    split; [|split; [|split; [|split]]].
    + subst process.
      unfold defaultRuleProcessorElasticSearch, valueSwitch.
      rewrite Hvs, Harr. cbv zeta. unfold index. simpl nth. simpl List.length.
      rewrite Hv1, Hv2, Hn1, Hn2, Hlt.
      cases_of_operator Hop; rewrite Hop; reflexivity.
    + left. split; reflexivity.
    + exact Hlt.
    + discriminate.
    + intros Ha Hb. apply SFleb_of_not_ltb; assumption.
Qed.

End ElasticSearchFacts.

(** ** The facts above at concrete rules *)

Definition rule3 (f op : string) (v : any) (vs : option ValueSource) : RuleType :=
  mkRule None f op v vs None.

Definition noOptions : ValueProcessorOptions := mkOptions None.
Definition withParseNumbers : ValueProcessorOptions := mkOptions (Some true).

Lemma IntHelpers_valid_string :
  forall s, s <> EmptyString -> IntHelpers.isValidValue (VStr s) = true.
Proof. intros [|c s] H; [congruence | reflexivity]. Qed.

Lemma field_source_comparison_is_scripted_witness :
  IntHelpers.process (rule3 "firstName" "=" (VStr "lastName") (Some VSfield)) noOptions
  = Return (scriptFilter "doc['firstName'] == doc['lastName']").
Proof.
  refine (proj1 (field_source_comparison_is_scripted
            IntHelpers.toArray IntHelpers.isValidValue
            IntHelpers.shouldRenderAsNumber IntHelpers.parseFloat
            IntHelpers.numToString
            (rule3 "firstName" "=" (VStr "lastName") (Some VSfield)) noOptions
            "lastName" _ _ _ _ _)).
  - reflexivity.
  - reflexivity.
  - discriminate.
  - reflexivity.
  - reflexivity.
Defined.

Lemma field_source_non_string_omitted_witness :
  IntHelpers.process
    (rule3 "age" "in" (VArr [VStr "minAge"; VNum (IntHelpers.ofZ 3)]) (Some VSfield))
    noOptions
  = Return JsFalse.
Proof.
  refine (field_source_non_string_omitted
            IntHelpers.toArray IntHelpers.isValidValue
            IntHelpers.shouldRenderAsNumber IntHelpers.parseFloat
            IntHelpers.numToString
            (rule3 "age" "in" (VArr [VStr "minAge"; VNum (IntHelpers.ofZ 3)])
               (Some VSfield))
            noOptions (VNum (IntHelpers.ofZ 3)) _ _ _).
  - reflexivity.
  - simpl. right. left. reflexivity.
  - discriminate.
Defined.

Lemma unsupported_or_incomplete_rule_omitted_witness :
  IntHelpers.process (rule3 "age" "between" (VStr "12") None) noOptions
  = Return JsFalse.
Proof.
  refine (unsupported_or_incomplete_rule_omitted
            IntHelpers.toArray IntHelpers.isValidValue
            IntHelpers.shouldRenderAsNumber IntHelpers.parseFloat
            IntHelpers.numToString
            (rule3 "age" "between" (VStr "12") None) noOptions
            IntHelpers_valid_string _).
  right. right. split; reflexivity.
Defined.

Lemma parseNumbers_renders_term_and_range_value_witness :
  IntHelpers.process (rule3 "age" "<=" (VStr "26") None) withParseNumbers
  = Return (rangeRule1 "age" "lte" (VNum (IntHelpers.ofZ 26))).
Proof.
  refine (proj1 (parseNumbers_renders_term_and_range_value
            IntHelpers.toArray IntHelpers.isValidValue
            IntHelpers.shouldRenderAsNumber IntHelpers.parseFloat
            IntHelpers.numToString
            (rule3 "age" "<=" (VStr "26") None) "26" _ _) _).
  - reflexivity.
  - reflexivity.
  - reflexivity.
Defined.

Lemma between_numeric_bounds_ordered_witness :
  exists lo hi : spec_float,
    IntHelpers.process (rule3 "age" "between" (VStr "30,12") None) noOptions
    = Return (rangeRule2 "age" (VNum lo) (VNum hi))
    /\ SFltb hi lo = false.
Proof.
  destruct (between_numeric_bounds_ordered
              IntHelpers.toArray IntHelpers.isValidValue
              IntHelpers.shouldRenderAsNumber IntHelpers.parseFloat
              IntHelpers.numToString
              (rule3 "age" "between" (VStr "30,12") None) noOptions
              (VStr "30") (VStr "12") [])
    as [lo [hi [Hres [_ [Hord _]]]]].
  - reflexivity.
  - reflexivity.
  - reflexivity.
  - reflexivity.
  - reflexivity.
  - reflexivity.
  - reflexivity.
  - exists lo, hi. split; [exact Hres | exact Hord].
Defined.

(** ** Runs of the processor *)

Example run_field_eq :
  IntHelpers.process (rule3 "firstName" "=" (VStr "lastName") (Some VSfield)) noOptions
  = Return (scriptFilter "doc['firstName'] == doc['lastName']").
Proof. vm_compute. reflexivity. Qed.

Example run_term_number :
  IntHelpers.process (rule3 "age" "=" (VStr "26") None) withParseNumbers
  = Return (termRule "age" (VNum (IntHelpers.ofZ 26))).
Proof. vm_compute. reflexivity. Qed.

Example run_term_string :
  IntHelpers.process (rule3 "age" "=" (VStr "26") None) noOptions
  = Return (termRule "age" (VStr "26")).
Proof. vm_compute. reflexivity. Qed.

Example run_between_swapped :
  IntHelpers.process (rule3 "age" "between" (VStr "30, 12") None) noOptions
  = Return (rangeRule2 "age" (VNum (IntHelpers.ofZ 12)) (VNum (IntHelpers.ofZ 30))).
Proof. vm_compute. reflexivity. Qed.

Example run_not_between :
  IntHelpers.process (rule3 "age" "notBetween" (VStr "12,30") None) noOptions
  = Return (obj1 "bool" (obj1 "must_not"
      (rangeRule2 "age" (VNum (IntHelpers.ofZ 12)) (VNum (IntHelpers.ofZ 30))))).
Proof. vm_compute. reflexivity. Qed.

Example run_ends_with_number :
  IntHelpers.process (rule3 "age" "endsWith" (VNum (IntHelpers.ofZ 120)) None) noOptions
  = Return (regexpRule "age" (VStr "120$")).
Proof. vm_compute. reflexivity. Qed.

Example run_unknown_operator :
  IntHelpers.process (rule3 "age" "like" (VStr "x") None) noOptions = Return JsFalse.
Proof. vm_compute. reflexivity. Qed.

(** A scripted comparison calls [replace] on the rule's value: a value
    that is neither a string nor nullish, and that [toArray] maps to a
    list of strings, makes the processor throw. *)
Example run_field_eq_array :
  IntHelpers.process (rule3 "a" "=" (VArr [VStr "b"]) (Some VSfield)) noOptions
  = Throw TypeError.
Proof. vm_compute. reflexivity. Qed.

(* ================================================================== *)
(** * Part III.b  The alternation invariant of IC trees *)
(* ================================================================== *)

(** ** Parity *)

Lemma odd_S (n : nat) : Nat.odd (S n) = negb (Nat.odd n).
Proof. rewrite Nat.odd_succ, <- Nat.negb_odd. reflexivity. Qed.

Lemma even_is_negb_odd (n : nat) : Nat.even n = negb (Nat.odd n).
Proof. rewrite <- Nat.negb_odd. reflexivity. Qed.

Lemma odd_plus_2 (n : nat) : Nat.odd (n + 2) = Nat.odd n.
Proof. rewrite Nat.odd_add. simpl. apply xorb_false_r. Qed.

Lemma odd_minus_2 (n : nat) : 2 <= n -> Nat.odd (n - 2) = Nat.odd n.
Proof.
  intros H. replace n with ((n - 2) + 2) at 2 by lia.
  symmetry. apply odd_plus_2.
Qed.

(** ** Alternating segments *)

(** [seg b l]: the elements of [l] are alternately nodes and combinator
    strings, starting with a node when [b] is [true]. *)
Fixpoint seg (expectNode : bool) (l : list RuleOrGroup) : bool :=
  match l with
  | [] => true
  | x :: l' => (Bool.eqb (isNode x) expectNode && seg (negb expectNode) l')%bool
  end.

Definition alternatesb (rules : list RuleOrGroup) : bool :=
  (seg true rules && (isNil rules || Nat.odd (List.length rules)))%bool.

Lemma seg_app (b : bool) (l1 l2 : list RuleOrGroup) :
  seg b (l1 ++ l2)%list
  = (seg b l1 && seg (xorb b (Nat.odd (List.length l1))) l2)%bool.
Proof.
  revert b. induction l1 as [|x l1 IH]; intros b; simpl.
  - rewrite xorb_false_r. reflexivity.
  - rewrite IH, odd_S.
    replace (xorb (negb b) (Nat.odd (List.length l1)))
      with (xorb b (negb (Nat.odd (List.length l1))))
      by (destruct b, (Nat.odd (List.length l1)); reflexivity).
    rewrite andb_assoc. reflexivity.
Qed.

Lemma seg_firstn (b : bool) (k : nat) (l : list RuleOrGroup) :
  seg b l = true -> seg b (firstn k l) = true.
Proof.
  revert b l. induction k as [|k IH]; intros b [|x l]; simpl; auto.
  intros H. apply andb_true_iff in H. destruct H as [Hx Hl].
  rewrite Hx. simpl. apply IH. exact Hl.
Qed.

Lemma seg_skipn (b : bool) (k : nat) (l : list RuleOrGroup) :
  seg b l = true -> seg (xorb b (Nat.odd k)) (skipn k l) = true.
Proof.
  revert b l. induction k as [|k IH]; intros b l H.
  - simpl. rewrite xorb_false_r. exact H.
  - destruct l as [|x l]; [reflexivity|]. simpl skipn.
    simpl in H. apply andb_true_iff in H. destruct H as [_ Hl].
    rewrite odd_S.
    replace (xorb b (negb (Nat.odd k))) with (xorb (negb b) (Nat.odd k))
      by (destruct b, (Nat.odd k); reflexivity).
    apply IH. exact Hl.
Qed.

Lemma seg_nth (b : bool) (l : list RuleOrGroup) (i : nat) (x : RuleOrGroup) :
  seg b l = true -> nth_error l i = Some x ->
  isNode x = xorb b (Nat.odd i).
Proof.
  revert b l. induction i as [|i IH]; intros b [|y l] H Hn; simpl in Hn;
    try discriminate.
  - injection Hn as ->. simpl in H. apply andb_true_iff in H.
    destruct H as [Hx _]. apply Bool.eqb_prop in Hx.
    rewrite Hx. simpl. rewrite xorb_false_r. reflexivity.
  - simpl in H. apply andb_true_iff in H. destruct H as [_ Hl].
    rewrite (IH _ _ Hl Hn), odd_S.
    destruct b, (Nat.odd i); reflexivity.
Qed.

Lemma seg_of_nth (l : list RuleOrGroup) (b : bool) :
  (forall i x, nth_error l i = Some x -> isNode x = xorb b (Nat.odd i)) ->
  seg b l = true.
Proof.
  revert b. induction l as [|y l IH]; intros b H; simpl; [reflexivity|].
  apply andb_true_iff. split.
  - rewrite (H 0 y eq_refl). simpl. rewrite xorb_false_r. apply eqb_reflx.
  - apply IH. intros i x Hn. rewrite (H (S i) x Hn), odd_S.
    destruct b, (Nat.odd i); reflexivity.
Qed.

Lemma length_firstn_le {A} (k : nat) (l : list A) :
  k <= List.length l -> List.length (firstn k l) = k.
Proof. intros H. rewrite length_firstn. lia. Qed.

Lemma isCombinator_negb (x : RuleOrGroup) : isCombinator x = negb (isNode x).
Proof. destruct x; reflexivity. Qed.

(** The boolean test decides the invariant as the specification words it. *)
Lemma alternatesb_spec (rules : list RuleOrGroup) :
  alternatesb rules = true <-> alternates rules.
Proof.
  unfold alternatesb, alternates. split.
  - intros H. apply andb_true_iff in H. destruct H as [Hseg Hlen].
    assert (Hidx : forall i x, nth_error rules i = Some x ->
              if Nat.even i then isNode x = true else isCombinator x = true).
    { intros i x Hn. rewrite isCombinator_negb, (seg_nth _ _ _ _ Hseg Hn).
      rewrite even_is_negb_odd. destruct (Nat.odd i); reflexivity. }
    split; [|split; [exact Hidx|split]].
    + apply orb_true_iff in Hlen. destruct Hlen as [Hnil | Hodd].
      * left. destruct rules; [reflexivity | discriminate].
      * right. exact Hodd.
    + intros x Hx. destruct rules as [|y l]; [discriminate|].
      injection Hx as ->. exact (Hidx 0 x eq_refl).
    + intros x Hx. pose proof (Hidx _ _ Hx) as Hi.
      apply orb_true_iff in Hlen. destruct Hlen as [Hnil | Hodd].
      * destruct rules; discriminate.
      * destruct (List.length rules) as [|n] eqn:Hl; [discriminate|].
        simpl in Hi. rewrite Nat.sub_0_r in Hi.
        rewrite odd_S in Hodd. rewrite even_is_negb_odd in Hi.
        rewrite Hodd in Hi. exact Hi.
  - intros [Hlen [Hidx _]]. apply andb_true_iff. split.
    + apply seg_of_nth. intros i x Hn. specialize (Hidx i x Hn).
      rewrite even_is_negb_odd, isCombinator_negb in Hidx.
      destruct (Nat.odd i), (isNode x); simpl in *; congruence.
    + apply orb_true_iff. destruct Hlen as [H0 | Hodd].
      * left. destruct rules; [reflexivity | discriminate].
      * right. exact Hodd.
Qed.

(** ** Editing an alternating array *)

Lemma alternatesb_append (comb : string) (x : RuleOrGroup) (rules : list RuleOrGroup) :
  isNode x = true -> alternatesb rules = true ->
  alternatesb (rules ++ (if (true && negb (isNil rules))%bool
                         then [CombinatorNode comb] else [])
                     ++ [x])%list = true.
Proof.
  intros Hx H. destruct rules as [|y l].
  - simpl. unfold alternatesb. simpl. rewrite Hx. reflexivity.
  - remember (y :: l) as rs eqn:Hrs.
    assert (Hne : isNil rs = false) by (subst; reflexivity).
    rewrite Hne. simpl negb. simpl andb. cbv iota.
    unfold alternatesb in *. rewrite Hne in H. simpl in H.
    apply andb_true_iff in H. destruct H as [Hseg Hodd].
    rewrite seg_app, Hseg, Hodd. simpl. rewrite Hx. simpl.
    rewrite length_app. simpl List.length. rewrite odd_plus_2, Hodd.
    rewrite orb_true_r. reflexivity.
Qed.

Lemma alternatesb_remove (i : nat) (x : RuleOrGroup) (rules : list RuleOrGroup) :
  alternatesb rules = true -> nth_error rules i = Some x -> isNode x = true ->
  alternatesb (if (i =? 0)%nat then skipn 2 rules
               else (firstn (i - 1) rules ++ skipn (S i) rules)%list) = true.
Proof.
  intros H Hn Hx. unfold alternatesb in *.
  apply andb_true_iff in H. destruct H as [Hseg Hlen].
  assert (Hi : i < List.length rules) by (apply nth_error_Some; congruence).
  assert (Hodd : Nat.odd (List.length rules) = true).
  { apply orb_true_iff in Hlen. destruct Hlen as [Hnil|Ho]; [|exact Ho].
    destruct rules; [simpl in Hi; lia | discriminate]. }
  pose proof (seg_nth _ _ _ _ Hseg Hn) as Hpar. rewrite Hx in Hpar.
  simpl in Hpar. assert (Hie : Nat.odd i = false)
    by (destruct (Nat.odd i); simpl in Hpar; congruence).
  destruct (i =? 0)%nat eqn:Hi0.
  - apply andb_true_iff. split.
    + exact (seg_skipn true 2 rules Hseg).
    + rewrite length_skipn.
      destruct (le_lt_dec 2 (List.length rules)) as [Hge|Hlt].
      * rewrite (odd_minus_2 _ Hge), Hodd. apply orb_true_r.
      * assert (Hz : List.length rules - 2 = 0) by lia.
        destruct (skipn 2 rules) eqn:Hs; [reflexivity|].
        apply (f_equal (@List.length _)) in Hs. rewrite length_skipn in Hs.
        simpl in Hs. lia.
  - apply Nat.eqb_neq in Hi0.
    assert (Hi2 : 2 <= i).
    { destruct i as [|[|i]]; [lia | discriminate | lia]. }
    assert (Hpred : Nat.odd (i - 1) = true).
    { replace i with (S (i - 1)) in Hie by lia. rewrite odd_S in Hie.
      destruct (Nat.odd (i - 1)); simpl in Hie; congruence. }
    apply andb_true_iff. split.
    + rewrite seg_app. rewrite (seg_firstn true (i - 1) rules Hseg).
      rewrite length_firstn_le by lia. rewrite Hpred. simpl.
      pose proof (seg_skipn true (S i) rules Hseg) as Hs.
      rewrite odd_S, Hie in Hs. exact Hs.
    + rewrite length_app, length_firstn_le, length_skipn by lia.
      replace (i - 1 + (List.length rules - S i)) with (List.length rules - 2)
        by lia.
      rewrite odd_minus_2 by lia. rewrite Hodd. apply orb_true_r.
Qed.

Lemma alternatesb_setNth (i : nat) (c c' : RuleOrGroup) (rules : list RuleOrGroup) :
  nth_error rules i = Some c -> isNode c' = isNode c ->
  alternatesb rules = true -> alternatesb (setNth i c' rules) = true.
Proof.
  intros Hn Hk H. unfold alternatesb in *.
  assert (Hi : i < List.length rules) by (apply nth_error_Some; congruence).
  apply andb_true_iff in H. destruct H as [Hseg Hlen].
  assert (Hlen' : List.length (setNth i c' rules) = List.length rules).
  { unfold setNth. rewrite length_app, length_firstn_le by lia.
    change (List.length (c' :: skipn (S i) rules))
      with (S (List.length (skipn (S i) rules))).
    rewrite length_skipn. lia. }
  apply andb_true_iff. split.
  - unfold setNth. rewrite seg_app, (seg_firstn true i rules Hseg).
    rewrite length_firstn_le by lia.
    change (seg (xorb true (Nat.odd i)) (c' :: skipn (S i) rules))
      with (Bool.eqb (isNode c') (xorb true (Nat.odd i))
            && seg (negb (xorb true (Nat.odd i))) (skipn (S i) rules))%bool.
    rewrite Hk, (seg_nth _ _ _ _ Hseg Hn), eqb_reflx.
    pose proof (seg_skipn true (S i) rules Hseg) as Hs.
    rewrite odd_S in Hs.
    destruct (Nat.odd i); simpl xorb in *; simpl negb in *; rewrite Hs;
      reflexivity.
  - rewrite Hlen'. apply orb_true_iff in Hlen. apply orb_true_iff.
    destruct Hlen as [Hnil | Hodd]; [|right; exact Hodd].
    destruct rules; [simpl in Hi; lia | discriminate].
Qed.

(** ** Well-formed IC trees *)

(** The invariant as a recursive test over the tree. *)
Fixpoint wfIC (query : RuleOrGroup) : bool :=
  match query with
  | GroupNode _ rules => (alternatesb rules && forallb wfIC rules)%bool
  | _ => true
  end.

Lemma wfIC_group (g : GroupProps) (rules : list RuleOrGroup) :
  wfIC (GroupNode g rules) = (alternatesb rules && forallb wfIC rules)%bool.
Proof. reflexivity. Qed.

(** Induction over the tree with the hypothesis for every child. *)
Lemma RuleOrGroup_rect_nested (P : RuleOrGroup -> Prop) :
  (forall r, P (RuleNode r)) ->
  (forall c, P (CombinatorNode c)) ->
  (forall g rules, Forall P rules -> P (GroupNode g rules)) ->
  forall x, P x.
Proof.
  intros Hr Hc Hg.
  fix IH 1. intros [r|c|g rules].
  - apply Hr.
  - apply Hc.
  - apply Hg. induction rules as [|y l IHl].
    + constructor.
    + constructor; [apply IH | exact IHl].
Qed.

Lemma forallb_nth {A} (f : A -> bool) (l : list A) (i : nat) (x : A) :
  forallb f l = true -> nth_error l i = Some x -> f x = true.
Proof.
  intros H Hn. rewrite forallb_forall in H. apply H.
  eapply nth_error_In. exact Hn.
Qed.

Lemma forallb_firstn {A} (f : A -> bool) (k : nat) (l : list A) :
  forallb f l = true -> forallb f (firstn k l) = true.
Proof.
  intros H. rewrite forallb_forall in *. intros x Hx. apply H.
  rewrite <- (firstn_skipn k l). apply in_or_app. left. exact Hx.
Qed.

Lemma forallb_skipn {A} (f : A -> bool) (k : nat) (l : list A) :
  forallb f l = true -> forallb f (skipn k l) = true.
Proof.
  intros H. rewrite forallb_forall in *. intros x Hx. apply H.
  rewrite <- (firstn_skipn k l). apply in_or_app. right. exact Hx.
Qed.

Lemma forallb_setNth {A} (f : A -> bool) (i : nat) (x : A) (l : list A) :
  forallb f l = true -> f x = true -> forallb f (setNth i x l) = true.
Proof.
  intros H Hx. unfold setNth. rewrite forallb_app.
  change (forallb f (x :: skipn (S i) l))
    with (f x && forallb f (skipn (S i) l))%bool.
  rewrite (forallb_firstn f i l H), Hx, (forallb_skipn f (S i) l H).
  reflexivity.
Qed.

Lemma wfIC_findPath (path : Path) (query x : RuleOrGroup) :
  wfIC query = true -> findPath path query = Some x -> wfIC x = true.
Proof.
  revert query. induction path as [|i path IH]; intros query Hwf Hf; simpl in Hf.
  - injection Hf as <-. exact Hwf.
  - destruct query as [r|c|g rules]; try discriminate.
    destruct (nth_error rules i) as [child|] eqn:Hn; [|discriminate].
    simpl in Hwf. apply andb_true_iff in Hwf. destruct Hwf as [_ Hall].
    apply (IH child); [|exact Hf]. exact (forallb_nth _ _ _ _ Hall Hn).
Qed.

(** The recursive test and the statement over paths agree. *)
Lemma wfIC_ICinvariant (query : RuleOrGroup) :
  wfIC query = true <-> ICinvariant query.
Proof.
  split.
  - intros Hwf path g rules Hf.
    pose proof (wfIC_findPath _ _ _ Hwf Hf) as Hg. simpl in Hg.
    apply andb_true_iff in Hg. apply alternatesb_spec. tauto.
  - induction query as [r|c|g rules IH] using RuleOrGroup_rect_nested;
      intros Hinv; try reflexivity.
    simpl. apply andb_true_iff. split.
    + apply alternatesb_spec. apply (Hinv [] g rules). reflexivity.
    + apply forallb_forall. intros x Hx.
      rewrite Forall_forall in IH. apply (IH x Hx).
      destruct (In_nth_error _ _ Hx) as [i Hi].
      intros path g' rules' Hf. apply (Hinv (i :: path) g' rules').
      simpl. rewrite Hi. exact Hf.
Qed.

(** An edit at the end of a path keeps the tree well formed when it keeps
    the edited element well formed and of the same kind. *)
Lemma modifyAt_wfIC (f : RuleOrGroup -> option RuleOrGroup) :
  (forall x x', f x = Some x' -> wfIC x = true ->
     wfIC x' = true /\ isNode x' = isNode x) ->
  forall path query query',
    modifyAt f path query = Some query' -> wfIC query = true ->
    wfIC query' = true /\ isNode query' = isNode query.
Proof.
  intros Hf. induction path as [|i path IH]; intros query query' Hm Hwf;
    simpl in Hm.
  - exact (Hf _ _ Hm Hwf).
  - destruct query as [r|c|g rules]; try discriminate.
    destruct (nth_error rules i) as [child|] eqn:Hn; [|discriminate].
    destruct (modifyAt f path child) as [child'|] eqn:Hc; [|discriminate].
    injection Hm as <-. simpl in Hwf. apply andb_true_iff in Hwf.
    destruct Hwf as [Halt Hall].
    destruct (IH child child' Hc (forallb_nth _ _ _ _ Hall Hn)) as [Hw Hk].
    split; [|reflexivity]. simpl. apply andb_true_iff. split.
    + exact (alternatesb_setNth i child child' rules Hn Hk Halt).
    + apply forallb_setNth; assumption.
Qed.

Lemma modifyAt_isRuleGroupTypeIC (f : RuleOrGroup -> option RuleOrGroup) :
  (forall x x', f x = Some x' -> isRuleGroupTypeIC x' = isRuleGroupTypeIC x) ->
  forall path query query',
    modifyAt f path query = Some query' ->
    isRuleGroupTypeIC query' = isRuleGroupTypeIC query.
Proof.
  intros Hf [|i path] query query' Hm; simpl in Hm.
  - exact (Hf _ _ Hm).
  - destruct query as [r|c|g rules]; try discriminate.
    destruct (nth_error rules i) as [child|]; [|discriminate].
    destruct (modifyAt f path child) as [child'|]; [|discriminate].
    injection Hm as <-. reflexivity.
Qed.

(** *** The edits of a group by add and remove *)

Lemma appendChild_wfIC (comb : string) (item x x' : RuleOrGroup) :
  isNode item = true -> wfIC item = true ->
  appendChild true comb item x = Some x' -> wfIC x = true ->
  wfIC x' = true /\ isNode x' = isNode x.
Proof.
  intros Hk Hw Ha Hx. destruct x as [r|c|g rules]; try discriminate.
  unfold appendChild in Ha. injection Ha as <-. split; [|reflexivity].
  rewrite wfIC_group in Hx. apply andb_true_iff in Hx.
  destruct Hx as [Halt Hall].
  rewrite wfIC_group. apply andb_true_iff. split.
  - exact (alternatesb_append comb item rules Hk Halt).
  - rewrite !forallb_app, Hall. simpl. rewrite Hw.
    destruct (negb (isNil rules)); reflexivity.
Qed.

Lemma removeChild_wfIC (i : nat) (x x' : RuleOrGroup) :
  removeChild true i x = Some x' -> wfIC x = true ->
  wfIC x' = true /\ isNode x' = isNode x.
Proof.
  intros Hr Hx. destruct x as [r|c|g rules]; try discriminate.
  unfold removeChild in Hr.
  destruct (nth_error rules i) as [y|] eqn:Hn; [|discriminate].
  destruct (isNode y) eqn:Hy; [|discriminate].
  injection Hr as <-. split; [|reflexivity].
  rewrite wfIC_group in Hx. apply andb_true_iff in Hx.
  destruct Hx as [Halt Hall].
  rewrite wfIC_group. apply andb_true_iff. split.
  - exact (alternatesb_remove i y rules Halt Hn Hy).
  - destruct (i =? 0)%nat.
    + exact (forallb_skipn wfIC 2 rules Hall).
    + rewrite forallb_app, (forallb_firstn _ (i - 1) _ Hall).
      exact (forallb_skipn wfIC (S i) rules Hall).
Qed.

Lemma appendChild_props ic comb item x x' :
  appendChild ic comb item x = Some x' ->
  isRuleGroupTypeIC x' = isRuleGroupTypeIC x.
Proof.
  destruct x; simpl; try discriminate. intros H. injection H as <-. reflexivity.
Qed.

Lemma removeChild_props ic i x x' :
  removeChild ic i x = Some x' ->
  isRuleGroupTypeIC x' = isRuleGroupTypeIC x.
Proof.
  destruct x as [r|c|g rules]; simpl; try discriminate.
  destruct (nth_error rules i) as [y|]; [|discriminate].
  destruct (isNode y); [|discriminate].
  intros H. injection H as <-. reflexivity.
Qed.

(** *** The operations *)

Definition isMove (op : StructuralOp) : bool :=
  match op with OpMove _ _ _ => true | _ => false end.

Section ICOperations.

Variable regenerateID : option string -> option string.

Lemma add_wfIC (query item : RuleOrGroup) (path : Path) (opts : AddOptions) :
  isRuleGroupTypeIC query = true -> wfIC query = true ->
  isNode item = true -> wfIC item = true ->
  wfIC (add query item path opts) = true
  /\ isRuleGroupTypeIC (add query item path opts) = true.
Proof.
  intros Hic Hwf Hk Hw. unfold add. rewrite Hic.
  destruct (modifyAt _ path query) as [q'|] eqn:Hm; simpl; [|tauto].
  split.
  - eapply (modifyAt_wfIC _ (fun x x' => appendChild_wfIC _ _ x x' Hk Hw));
      eassumption.
  - rewrite <- Hic.
    eapply (modifyAt_isRuleGroupTypeIC _
              (fun x x' => appendChild_props _ _ _ x x')); eassumption.
Qed.

Lemma remove_wfIC (query : RuleOrGroup) (path : Path) :
  isRuleGroupTypeIC query = true -> wfIC query = true ->
  wfIC (remove query path) = true
  /\ isRuleGroupTypeIC (remove query path) = true.
Proof.
  intros Hic Hwf. unfold remove. rewrite Hic.
  destruct (lastIndex path) as [i|]; [|tauto].
  destruct (modifyAt _ _ query) as [q'|] eqn:Hm; simpl; [|tauto].
  split.
  - eapply (modifyAt_wfIC _ (fun x x' => removeChild_wfIC i x x'));
      eassumption.
  - rewrite <- Hic.
    eapply (modifyAt_isRuleGroupTypeIC _
              (fun x x' => removeChild_props _ i x x')); eassumption.
Qed.

(** Add and remove keep the invariant: starting from an IC tree whose
    groups all have alternating rules, after any finite sequence of add
    and remove operations (an added item being a rule, or a group whose
    rules alternate throughout) every group's rules array alternates. *)
Lemma add_remove_preserve_ic_invariant :
  forall (ops : list StructuralOp) (query : RuleOrGroup),
    isRuleGroupTypeIC query = true ->
    ICinvariant query ->
    Forall addsICNodes ops ->
    Forall (fun op => isMove op = false) ops ->
    ICinvariant (applyOps regenerateID query ops).
Proof.
  intros ops query Hic Hinv Hops Hnm.
  apply wfIC_ICinvariant. apply wfIC_ICinvariant in Hinv.
  revert query Hic Hinv Hnm.
  induction Hops as [|op ops Hop Hops IH]; intros query Hic Hwf Hnm.
  - exact Hwf.
  - unfold applyOps. simpl fold_left.
    inversion Hnm as [|? ? Hm Hnm']; subst.
    assert (Hstep : wfIC (applyOp regenerateID query op) = true
                    /\ isRuleGroupTypeIC (applyOp regenerateID query op) = true).
    { destruct op as [x path opts | path | oldPath newPath opts]; simpl.
      - destruct Hop as [Hk Hx]. apply wfIC_ICinvariant in Hx.
        apply add_wfIC; assumption.
      - apply remove_wfIC; assumption.
      - discriminate. }
    destruct Hstep as [Hw' Hic']. exact (IH _ Hic' Hw' Hnm').
Qed.

End ICOperations.

(* ================================================================== *)
(** * Part III.c  Addressing errors and moves into a descendant *)
(* ================================================================== *)



Lemma lastIndex_app (path : Path) (i : nat) :
  lastIndex (path ++ [i])%list = Some i.
Proof.
  induction path as [|a path IH]; [reflexivity|].
  simpl. rewrite IH. destruct (path ++ [i])%list eqn:E; [|reflexivity].
  destruct path; discriminate.
Qed.

Lemma getParentPath_app (path : Path) (i : nat) :
  getParentPath (path ++ [i])%list = path.
Proof. unfold getParentPath. apply removelast_last. Qed.

Lemma path_snoc (path : Path) (i : nat) :
  lastIndex path = Some i -> path = (getParentPath path ++ [i])%list.
Proof.
  induction path as [|a path IH]; [discriminate|].
  destruct path as [|b path].
  - simpl. intros H. injection H as ->. reflexivity.
  - intros H. change (lastIndex (a :: b :: path)) with (lastIndex (b :: path)) in H.
    specialize (IH H). unfold getParentPath in *.
    change (a :: b :: path = a :: (removelast (b :: path) ++ [i])%list).
    f_equal. exact IH.
Qed.

Lemma findPath_app (p1 p2 : Path) (query : RuleOrGroup) :
  findPath (p1 ++ p2)%list query
  = match findPath p1 query with
    | Some x => findPath p2 x
    | None => None
    end.
Proof.
  revert query. induction p1 as [|i p1 IH]; intros query; simpl; [reflexivity|].
  destruct query as [r|c|g rules]; try reflexivity.
  destruct (nth_error rules i) as [child|]; [apply IH | reflexivity].
Qed.


(** [isAncestor] is the strict-prefix relation. *)
Lemma isAncestor_spec (a b : Path) :
  isAncestor a b = true <-> exists rest, rest <> [] /\ b = (a ++ rest)%list.
Proof.
  revert b. induction a as [|x a IH]; intros [|y b]; simpl.
  - split; [discriminate|]. intros [rest [Hne He]]. destruct rest; congruence.
  - split; [|reflexivity]. intros _. exists (y :: b). split; [discriminate|reflexivity].
  - split; [discriminate|]. intros [rest [_ He]]. discriminate.
  - rewrite andb_true_iff, Nat.eqb_eq, IH. split.
    + intros [-> [rest [Hne ->]]]. exists rest. split; [exact Hne|reflexivity].
    + intros [rest [Hne He]]. injection He as -> ->. split; [reflexivity|].
      exists rest. split; [exact Hne|reflexivity].
Qed.



(** A path that addresses an element below the root is a position of
    the tree, and so is the end of every group. *)
Lemma addressesPosition_of_element (path : Path) (query x : RuleOrGroup) :
  path <> [] -> findPath path query = Some x ->
  addressesPosition path query = true.
Proof.
  intros Hne Hf. unfold addressesPosition.
  destruct (lastIndex path) as [k|] eqn:Hl.
  - rewrite (path_snoc path k Hl), findPath_app in Hf.
    destruct (findPath (getParentPath path) query) as [[r|c|g rules]|];
      simpl in Hf; try discriminate.
    destruct (nth_error rules k) eqn:Hn; [|discriminate].
    apply Nat.leb_le. apply Nat.lt_le_incl. apply nth_error_Some.
    rewrite Hn. discriminate.
  - destruct path as [|a path]; [congruence|].
    exfalso. clear -Hl. revert a Hl.
    induction path as [|b path IH]; intros a Hl; [discriminate|].
    exact (IH b Hl).
Qed.

Lemma addressesPosition_of_end (path : Path) (query : RuleOrGroup)
    (g : GroupProps) (rules : list RuleOrGroup) :
  findPath path query = Some (GroupNode g rules) ->
  addressesPosition (path ++ [List.length rules])%list query = true.
Proof.
  intros Hf. unfold addressesPosition.
  rewrite lastIndex_app, getParentPath_app, Hf. apply Nat.leb_refl.
Qed.

Section StructuralOperations.

Variable regenerateID : option string -> option string.


(** C7.  When [oldPath] is a strict prefix of [newPath], [move] returns
    the tree it was given, whatever the options; and the drop target
    of the drag-and-drop hook refuses such a drop in the first place.
    (Trees are finite inductive values: no operation can produce a
    cycle.) *)
Theorem move_into_descendant_is_noop :
  forall (query : RuleOrGroup) (oldPath rest : Path) (opts : MoveOptions)
         (canDrop : option (DraggedItem -> Path -> bool))
         (independentCombinators : option bool),
    rest <> [] ->
    move regenerateID query oldPath (oldPath ++ rest)%list opts = query
    /\ useRuleDnD_canDrop canDrop independentCombinators
         (oldPath ++ rest)%list (mkDraggedItem oldPath) = false.
Proof.
  intros query oldPath rest opts canDrop ic Hne.
  assert (Ha : isAncestor oldPath (oldPath ++ rest)%list = true).
  { apply isAncestor_spec. exists rest. split; [exact Hne|reflexivity]. }
  split.
  - unfold move. destruct (lastIndex oldPath); [|reflexivity].
    rewrite Ha. reflexivity.
  - unfold useRuleDnD_canDrop. simpl item_path. rewrite Ha.
    destruct canDrop as [f|]; [destruct (f _ _)|]; reflexivity.
Qed.

End StructuralOperations.

(* ================================================================== *)
(** * Part III.d  The SQL fallback *)
(* ================================================================== *)

(** C6.  [formatQuery({combinator: "and", rules: []}, {format: "sql"})]
    is the string "(1 = 1)", whatever the rule processor and the join and
    negation syntax of the format are. *)
Theorem formatQuery_sql_empty_group :
  forall (defaultRuleProcessor : RuleType -> string)
         (joinFragments : list (string * string) -> string)
         (negate : string -> string),
    formatQuery_sql defaultRuleProcessor joinFragments negate
      (ruleGroup "and" []) defaultFormatOptions
    = "(1 = 1)".
Proof. intros. reflexivity. Qed.

(* ================================================================== *)
(** * Part III.e  The operations on concrete trees *)
(* ================================================================== *)

Definition ruleA : RuleOrGroup := RuleNode (rule3 "a" "=" (VStr "1") None).
Definition ruleB : RuleOrGroup := RuleNode (rule3 "b" "=" (VStr "2") None).
Definition ruleC : RuleOrGroup := RuleNode (rule3 "c" "=" (VStr "3") None).
Definition ruleD : RuleOrGroup := RuleNode (rule3 "d" "=" (VStr "4") None).

Definition icQuery : RuleOrGroup :=
  ruleGroupIC [ruleA; CombinatorNode "and"; ruleB; CombinatorNode "or";
               ruleGroupIC [ruleC]].

Definition stdQuery : RuleOrGroup :=
  ruleGroup "and" [ruleA; ruleB; ruleGroup "or" [ruleC]].

Definition copyID (o : option string) : option string :=
  option_map (fun s => s ++ "_copy") o.

Definition noAddOptions : AddOptions := mkAddOptions None.
Definition noMoveOptions : MoveOptions := mkMoveOptions None None.
Definition cloneOptions : MoveOptions := mkMoveOptions (Some true) None.

Example findPath_nested : findPath [4; 0] icQuery = Some ruleC.
Proof. reflexivity. Qed.

Example add_to_ic_group :
  add icQuery ruleD [4] noAddOptions
  = ruleGroupIC [ruleA; CombinatorNode "and"; ruleB; CombinatorNode "or";
                 ruleGroupIC [ruleC; CombinatorNode "and"; ruleD]].
Proof. reflexivity. Qed.

Example add_to_empty_ic_group :
  add (ruleGroupIC []) ruleD [] noAddOptions = ruleGroupIC [ruleD].
Proof. reflexivity. Qed.

Example add_to_std_group :
  add stdQuery ruleD [] noAddOptions
  = ruleGroup "and" [ruleA; ruleB; ruleGroup "or" [ruleC]; ruleD].
Proof. reflexivity. Qed.

Example remove_first_of_ic :
  remove icQuery [0]
  = ruleGroupIC [ruleB; CombinatorNode "or"; ruleGroupIC [ruleC]].
Proof. reflexivity. Qed.

Example remove_middle_of_ic :
  remove icQuery [2]
  = ruleGroupIC [ruleA; CombinatorNode "or"; ruleGroupIC [ruleC]].
Proof. reflexivity. Qed.

Example remove_last_remaining :
  remove icQuery [4; 0]
  = ruleGroupIC [ruleA; CombinatorNode "and"; ruleB; CombinatorNode "or";
                 ruleGroupIC []].
Proof. reflexivity. Qed.

Example remove_combinator_slot : remove icQuery [1] = icQuery.
Proof. reflexivity. Qed.

Example move_to_front_of_ic :
  move copyID icQuery [2] [0] noMoveOptions
  = ruleGroupIC [CombinatorNode "and"; ruleB; ruleA; CombinatorNode "or";
                 ruleGroupIC [ruleC]].
Proof. reflexivity. Qed.

Example move_to_node_slot_of_ic :
  move copyID icQuery [0] [4] noMoveOptions
  = ruleGroupIC [ruleB; CombinatorNode "or"; CombinatorNode "and"; ruleA;
                 ruleGroupIC [ruleC]].
Proof. reflexivity. Qed.

Example move_later_in_ic :
  move copyID icQuery [0] [3] noMoveOptions
  = ruleGroupIC [ruleB; CombinatorNode "and"; ruleA; CombinatorNode "or";
                 ruleGroupIC [ruleC]].
Proof. reflexivity. Qed.

Example move_into_subgroup_of_ic :
  move copyID icQuery [0] [4; 1] noMoveOptions
  = ruleGroupIC [ruleB; CombinatorNode "or";
                 ruleGroupIC [ruleC; CombinatorNode "and"; ruleA]].
Proof. reflexivity. Qed.

Example move_in_std :
  move copyID stdQuery [0] [2] noMoveOptions
  = ruleGroup "and" [ruleB; ruleA; ruleGroup "or" [ruleC]].
Proof. reflexivity. Qed.

Example clone_in_std :
  move copyID stdQuery [0] [2] cloneOptions
  = ruleGroup "and" [ruleA; ruleB; ruleA; ruleGroup "or" [ruleC]].
Proof. reflexivity. Qed.

Example clone_to_end_of_ic :
  move copyID icQuery [0] [5] cloneOptions
  = ruleGroupIC [ruleA; CombinatorNode "and"; ruleB; CombinatorNode "or";
                 ruleGroupIC [ruleC]; CombinatorNode "and"; ruleA].
Proof. reflexivity. Qed.

Example move_under_combinator_slot :
  findPath [1; 0] icQuery = None
  /\ move copyID icQuery [0] [1; 0] noMoveOptions = icQuery.
Proof. split; reflexivity. Qed.

Example move_beyond_the_end :
  move copyID icQuery [0] [6] noMoveOptions = icQuery
  /\ move copyID icQuery [0] [4; 2] noMoveOptions = icQuery.
Proof. split; reflexivity. Qed.

Example update_combinator_slot :
  update icQuery (SetCombinator "or") [1]
    (mkUpdateOptions None None (fun _ => "=") (fun _ _ => [VSvalue])
       (fun _ => VStr EmptyString))
  = ruleGroupIC [ruleA; CombinatorNode "or"; ruleB; CombinatorNode "or";
                 ruleGroupIC [ruleC]].
Proof. reflexivity. Qed.

Example update_field_resets :
  update stdQuery (SetField "lastName") [0]
    (mkUpdateOptions None None (fun _ => "contains") (fun _ _ => [VSvalue])
       (fun _ => VStr EmptyString))
  = ruleGroup "and"
      [RuleNode (rule3 "lastName" "contains" (VStr EmptyString) None); ruleB;
       ruleGroup "or" [ruleC]].
Proof. reflexivity. Qed.

Example canDrop_previous_sibling :
  useRuleDnD_canDrop None (Some true) [0] (mkDraggedItem [2]) = false.
Proof. reflexivity. Qed.

Example canDrop_other_sibling :
  useRuleDnD_canDrop None (Some true) [4] (mkDraggedItem [0]) = true.
Proof. reflexivity. Qed.

Example formatQuery_sql_invalid_group :
  formatQuery_sql (fun r => field r ++ " " ++ operator r ++ " ?")
    (fun l => concat " " (map snd l)) (fun s => "NOT " ++ s)
    stdQuery
    (mkFormatQueryOptions None (Some (fun _ => false)) None None None)
  = "(1 = 1)".
Proof. reflexivity. Qed.



Lemma move_into_descendant_is_noop_witness :
  move copyID icQuery [4] [4; 0] noMoveOptions = icQuery
  /\ useRuleDnD_canDrop None (Some true) [4; 0] (mkDraggedItem [4]) = false.
Proof.
  apply (move_into_descendant_is_noop copyID icQuery [4] [0] noMoveOptions
           None (Some true)).
  discriminate.
Defined.

(* ================================================================== *)
(** * Part IV.a  More on the Elasticsearch rule processor *)
(* ================================================================== *)

(** The rule with another operator, and with another value source. *)
Definition withOperator (rule : RuleType) (op : string) : RuleType :=
  mkRule (id rule) (field rule) op (value rule) (valueSource rule) (disabled rule).

Definition withValueSource (rule : RuleType) (vs : option ValueSource) : RuleType :=
  mkRule (id rule) (field rule) (operator rule) (value rule) vs (disabled rule).

(** The [case] labels of the first [switch] whose body calls [escapeSQ]
    on the rule's value: lines 70-75 and 117-122. *)
Definition comparisonOperators : list string :=
  ["="; "!="; ">"; ">="; "<"; "<="].

Definition textOperators : list string :=
  ["contains"; "doesNotContain"; "beginsWith"; "doesNotBeginWith";
   "endsWith"; "doesNotEndWith"].

(** All the [case] labels of the first [switch]. *)
Definition fieldSwitchOperators : list string :=
  (comparisonOperators ++ ["in"; "notIn"; "between"; "notBetween"]
   ++ textOperators)%list.

Definition isNullish (v : any) : bool :=
  match v with VUndefined | VNull => true | _ => false end.

Definition isJsFalse (v : any) : bool :=
  match v with VBool false => true | _ => false end.

(** [{ bool: { must_not: r } }] *)
Definition mustNot (r : any) : any := obj1 "bool" (obj1 "must_not" r).

(** The operators that negate another one, each with the one it negates. *)
Definition negatedOperators : list (string * string) :=
  [("!=", "="); ("null", "notNull"); ("notBetween", "between");
   ("doesNotContain", "contains"); ("doesNotBeginWith", "beginsWith");
   ("doesNotEndWith", "endsWith")].

(** The negating operators of the first [switch], each with the operator
    it negates and the way the script is negated: lines 110 and 53. *)
Definition negatedScripts : list (string * string * (string -> string)) :=
  [("notBetween", "between", fun script => "!(" ++ script ++ ")");
   ("doesNotContain", "contains", fun script => "!" ++ script);
   ("doesNotBeginWith", "beginsWith", fun script => "!" ++ script);
   ("doesNotEndWith", "endsWith", fun script => "!" ++ script)].

(** ** Escaping *)

(** Reading an escaped string back: a backslash stands for the character
    after it. *)
Fixpoint unescapeChars (s : string) : string :=
  match s with
  | EmptyString => EmptyString
  | String c rest =>
      if Ascii.eqb c backslashChar then
        match rest with
        | EmptyString => EmptyString
        | String d s' => String d (unescapeChars s')
        end
      else String c (unescapeChars rest)
  end.

(** Scanning the body of a single-quoted literal: [true] when a quote
    that no backslash protects occurs, or the body ends in a backslash
    that would protect the closing quote. *)
Fixpoint breaksLiteral (s : string) : bool :=
  match s with
  | EmptyString => false
  | String c rest =>
      if Ascii.eqb c backslashChar then
        match rest with
        | EmptyString => true
        | String _ s' => breaksLiteral s'
        end
      else if Ascii.eqb c quoteChar then true
      else breaksLiteral rest
  end.

(** X1.  [escapeSQ] loses nothing: reading the backslashes of the escaped
    string back gives the string it was made from, so different strings
    have different escaped forms. *)
Theorem escapeSQ_round_trip :
  forall s : string,
    exists e, escapeSQ (VStr s) = Return (VStr e)
              /\ unescapeChars e = s
              /\ forall s', escapeSQ (VStr s') = Return (VStr e) -> s' = s.
Proof.
  assert (Hrt : forall s, unescapeChars (escapeChars s) = s).
  { induction s as [|c s IH]; [reflexivity|]. simpl.
    destruct (Ascii.eqb c quoteChar) eqn:Hq; simpl.
    - rewrite IH. reflexivity.
    - destruct (Ascii.eqb c backslashChar) eqn:Hb; simpl.
      + rewrite IH. reflexivity.
      + rewrite Hb, IH. reflexivity. }
  intros s. exists (escapeChars s). split; [reflexivity|].
  split; [apply Hrt|].
  intros s' H. simpl in H. injection H as H.
  rewrite <- (Hrt s'), H. apply Hrt.
Qed.

(** X2.  The escaped form of any string can stand between single quotes:
    it has no quote without a backslash in front of it and does not end
    in a backslash that would take the closing quote. *)
Theorem escapeSQ_keeps_literal_closed :
  forall s : string,
    exists e, escapeSQ (VStr s) = Return (VStr e) /\ breaksLiteral e = false.
Proof.
  intros s. exists (escapeChars s). split; [reflexivity|].
  induction s as [|c s IH]; [reflexivity|]. simpl.
  destruct (Ascii.eqb c quoteChar) eqn:Hq; simpl.
  - exact IH.
  - destruct (Ascii.eqb c backslashChar) eqn:Hb; simpl.
    + exact IH.
    + rewrite Hb, Hq. exact IH.
Qed.

(** ** Outcomes of the processor *)

Lemma negateIfNotOp_positive (op : string) (r : any) :
  In op ["between"; "contains"; "beginsWith"; "endsWith"] ->
  negateIfNotOp op r = r.
Proof.
  simpl. intros [H|[H|[H|[H|[]]]]]; subst op; reflexivity.
Qed.

Lemma negateIfNotOp_negative (op : string) (r : any) :
  In op ["notBetween"; "doesNotContain"; "doesNotBeginWith"; "doesNotEndWith"] ->
  negateIfNotOp op r = mustNot r.
Proof.
  simpl. intros [H|[H|[H|[H|[]]]]]; subst op; reflexivity.
Qed.

Lemma length_positive {A} (l : list A) :
  l <> [] -> (0 <? List.length l)%nat = true.
Proof. destruct l; [congruence | reflexivity]. Qed.

Section ElasticSearchOutcomes.

Variable toArray : any -> list any.
Variable isValidValue : any -> bool.
Variable shouldRenderAsNumber : any -> option bool -> bool.
Variable parseFloat : any -> spec_float.
Variable numToString : spec_float -> string.

Let process :=
  defaultRuleProcessorElasticSearch
    toArray isValidValue shouldRenderAsNumber parseFloat numToString.

Lemma mapOutcome_strings {B} (f : any -> outcome B) (g : any -> B) (l : list any) :
  (forall x, isTString x = true -> f x = Return (g x)) ->
  forallb isTString l = true ->
  mapOutcome f l = Return (map g l).
Proof.
  intros Hf. induction l as [|x l IH]; simpl; [reflexivity|].
  intros H. apply andb_true_iff in H. destruct H as [Hx Hl].
  rewrite (Hf x Hx), (IH Hl). reflexivity.
Qed.

Lemma oneOf_sublist (op : string) (l1 l2 : list string) :
  incl l1 l2 -> oneOf op l1 = true -> oneOf op l2 = true.
Proof.
  intros Hincl H. apply oneOf_In. apply oneOf_In in H. exact (Hincl _ H).
Qed.

(** The second [switch] throws in the two template literals only. *)
Lemma valueSwitch_throws (rule : RuleType) (opts : ValueProcessorOptions) :
  valueSwitch toArray isValidValue shouldRenderAsNumber parseFloat numToString
    rule opts = Throw TypeError
  <-> (oneOf (operator rule)
         ["beginsWith"; "doesNotBeginWith"; "endsWith"; "doesNotEndWith"] = true
       /\ ToString numToString (value rule) = Throw TypeError).
Proof.
  split.
  - destruct (oneOf (operator rule) supportedOperators) eqn:Hop.
    + unfold supportedOperators in Hop. unfold valueSwitch. cbv zeta.
      cases_of_operator Hop; rewrite Hop; simpl oneOf; simpl String.eqb;
        cbv iota;
        try discriminate;
        try (destruct (0 <? _)%nat; discriminate);
        try (destruct (_ && _ && _)%bool; [|discriminate];
             destruct (_ && _)%bool; [destruct (SFltb _ _)|]; discriminate);
        destruct (ToString numToString (value rule)) as [text|[]] eqn:HT;
        unfold bind; try discriminate; intros _; split; reflexivity.
    + rewrite (valueSwitch_unsupported toArray isValidValue shouldRenderAsNumber
                 parseFloat numToString rule opts Hop). discriminate.
  - intros [Hop HT]. unfold valueSwitch. cbv zeta.
    cases_of_operator Hop; rewrite Hop; simpl oneOf; simpl String.eqb;
      cbv iota; rewrite HT; reflexivity.
Qed.

(** X3.  The processor throws in two cases only.  Either the value
    source is "field", every element of [toArray value] is a string,
    the operator is a comparison or a text operator, and the value
    itself is neither a string nor null nor undefined (the call of
    [replace] on it fails).  Or the value source is literal, the
    operator is beginsWith, doesNotBeginWith, endsWith or
    doesNotEndWith, and the value cannot be converted to a string in
    the template literal (an object with an own [toString] property,
    which is not a function, or an array holding one). *)
Theorem processor_throws_iff :
  forall (rule : RuleType) (opts : ValueProcessorOptions),
    process rule opts = Throw TypeError
    <-> ((valueSource rule = Some VSfield
          /\ forallb isTString (toArray (value rule)) = true
          /\ oneOf (operator rule) (comparisonOperators ++ textOperators) = true
          /\ isTString (value rule) = false
          /\ isNullish (value rule) = false)
         \/ (isFieldSource (valueSource rule) = false
             /\ oneOf (operator rule)
                  ["beginsWith"; "doesNotBeginWith"; "endsWith"; "doesNotEndWith"]
                = true
             /\ ToString numToString (value rule) = Throw TypeError)).
Proof.
  intros rule opts. subst process. split.
  - unfold defaultRuleProcessorElasticSearch.
    destruct (valueSource rule) as [[|]|]; simpl isFieldSource; cbv iota;
      try (intros H; apply valueSwitch_throws in H; right;
           split; [reflexivity | exact H]).
    destruct (existsb _ _) eqn:Hex; [discriminate|].
    apply existsb_not_string_false_inv in Hex.
    simpl escapeSQ. unfold bind at 1.
    unfold oneOf at 5. unfold comparisonOperators, textOperators.
    rewrite existsb_app. fold (oneOf (operator rule) ["="; "!="; ">"; ">="; "<"; "<="]).
    destruct (oneOf (operator rule) ["="; "!="; ">"; ">="; "<"; "<="]) eqn:E1.
    + intros H. left. repeat split; try assumption.
      * destruct (value rule); simpl in *; try reflexivity;
          destruct (negb _); discriminate.
      * destruct (value rule); simpl in *; try reflexivity; discriminate.
    + destruct (oneOf (operator rule) ["in"; "notIn"]).
      { destruct (0 <? _)%nat; [|discriminate].
        erewrite (mapOutcome_strings _
                    (fun x => scriptFilter
                       ("doc['" ++ escapeChars (field rule) ++ "'] == doc['"
                        ++ match x with VStr s => s | _ => EmptyString end
                        ++ "']")));
          [discriminate | | exact Hex].
        intros x Hx. destruct x; try discriminate Hx. reflexivity. }
      destruct (oneOf (operator rule) ["between"; "notBetween"]).
      { cbv zeta.
        destruct (_ && _ && _)%bool eqn:Hb; [|discriminate].
        apply andb_true_iff in Hb. destruct Hb as [Hb _].
        apply andb_true_iff in Hb. destruct Hb as [Hlen _].
        apply Nat.leb_le in Hlen.
        destruct (index_string_of_forallb _ 0 Hex ltac:(lia)) as [s0 ->].
        destruct (index_string_of_forallb _ 1 Hex ltac:(lia)) as [s1 ->].
        discriminate. }
      fold (oneOf (operator rule)
              ["contains"; "doesNotContain"; "beginsWith"; "doesNotBeginWith";
               "endsWith"; "doesNotEndWith"]).
      destruct (oneOf (operator rule)
                  ["contains"; "doesNotContain"; "beginsWith"; "doesNotBeginWith";
                   "endsWith"; "doesNotEndWith"]) eqn:E4.
      * intros H. left. repeat split; try assumption.
        -- destruct (value rule); simpl in *; try reflexivity;
             destruct (negb _); discriminate.
        -- destruct (value rule); simpl in *; try reflexivity; discriminate.
      * intros H. apply valueSwitch_throws in H. destruct H as [Hop _].
        apply (oneOf_sublist _ _
                 ["contains"; "doesNotContain"; "beginsWith"; "doesNotBeginWith";
                  "endsWith"; "doesNotEndWith"]) in Hop;
          [congruence|].
        intros x Hx. simpl in *. tauto.
  - intros [[Hvs [Hstr [Hop [Hs Hn]]]] | [Hvs H]].
    + unfold defaultRuleProcessorElasticSearch.
      rewrite Hvs. simpl isFieldSource. cbv iota.
      rewrite (existsb_not_string_false _ Hstr).
      unfold comparisonOperators, textOperators in Hop.
      cases_of_operator Hop; rewrite Hop;
        destruct (value rule); simpl in *; try discriminate; reflexivity.
    + unfold defaultRuleProcessorElasticSearch. rewrite Hvs.
      apply valueSwitch_throws. exact H.
Qed.

(** X4.  With a literal value source, an operator that negates another
    one does what the other does for the same rule and puts the result
    under [must_not]: it omits the rule when the other omits it, and
    throws when the other throws.  The pairs are != against =, null
    against notNull, notBetween against between, and the three
    doesNot... operators against contains, beginsWith and endsWith.
    The positive operator throws exactly when it is beginsWith or
    endsWith and the value cannot be converted to a string. *)
Theorem negated_operator_is_must_not :
  forall (rule : RuleType) (opts : ValueProcessorOptions) (neg pos : string),
    In (neg, pos) negatedOperators ->
    isFieldSource (valueSource rule) = false ->
    process (withOperator rule neg) opts
    = match process (withOperator rule pos) opts with
      | Return r => Return (if isJsFalse r then JsFalse else mustNot r)
      | Throw e => Throw e
      end
    /\ (process (withOperator rule pos) opts = Throw TypeError
        <-> (oneOf pos ["beginsWith"; "endsWith"] = true
             /\ ToString numToString (value rule) = Throw TypeError)).
Proof.
  intros rule opts neg pos Hin Hvs. subst process.
  unfold defaultRuleProcessorElasticSearch, withOperator. simpl valueSource.
  rewrite Hvs. unfold valueSwitch.
  simpl in Hin.
  destruct Hin as [H|[H|[H|[H|[H|[H|[]]]]]]]; injection H as <- <-;
    simpl operator; simpl field; simpl value; cbv zeta.
  - split; [reflexivity|]. split; [discriminate | intros [H _]; discriminate H].
  - split; [reflexivity|]. split; [discriminate | intros [H _]; discriminate H].
  - change (oneOf "between" ["<"; "<="; ">"; ">="]) with false.
    change (oneOf "notBetween" ["<"; "<="; ">"; ">="]) with false.
    cbv iota.
    change ("between" =? "=") with false. change ("notBetween" =? "=") with false.
    change ("between" =? "!=") with false. change ("notBetween" =? "!=") with false.
    change ("between" =? "null") with false. change ("notBetween" =? "null") with false.
    change ("between" =? "notNull") with false.
    change ("notBetween" =? "notNull") with false.
    change (oneOf "between" ["in"; "notIn"]) with false.
    change (oneOf "notBetween" ["in"; "notIn"]) with false.
    change (oneOf "between" ["between"; "notBetween"]) with true.
    change (oneOf "notBetween" ["between"; "notBetween"]) with true.
    cbv iota.
    destruct (_ && _ && _)%bool;
      [|split; [reflexivity|];
        split; [discriminate | intros [H _]; discriminate H]].
    destruct (_ && _)%bool;
      [destruct (SFltb _ _)|];
      (split; [reflexivity|];
       split; [discriminate | intros [H _]; discriminate H]).
  - split; [reflexivity|]. split; [discriminate | intros [H _]; discriminate H].
  - simpl oneOf. simpl String.eqb. cbv iota.
    destruct (ToString numToString (value rule)) as [text|[]]; unfold bind.
    + split; [reflexivity|].
      split; [discriminate | intros [_ H]; discriminate H].
    + split; [reflexivity|]. split; [intros _|]; split; reflexivity.
  - simpl oneOf. simpl String.eqb. cbv iota.
    destruct (ToString numToString (value rule)) as [text|[]]; unfold bind.
    + split; [reflexivity|].
      split; [discriminate | intros [_ H]; discriminate H].
    + split; [reflexivity|]. split; [intros _|]; split; reflexivity.
Qed.

(** X5.  When [toArray value] is not empty (and, for value source
    "field", holds strings only), in and notIn build the same list of
    clauses, one for each element of [toArray value]: in puts the list
    under [should], notIn under [must_not]. *)
Theorem in_and_notIn_share_clauses :
  forall (rule : RuleType) (opts : ValueProcessorOptions),
    toArray (value rule) <> [] ->
    (isFieldSource (valueSource rule) = true ->
     forallb isTString (toArray (value rule)) = true) ->
    exists clauses : list any,
      List.length clauses = List.length (toArray (value rule))
      /\ process (withOperator rule "in") opts
         = Return (obj1 "bool" (obj1 "should" (VArr clauses)))
      /\ process (withOperator rule "notIn") opts
         = Return (obj1 "bool" (obj1 "must_not" (VArr clauses))).
Proof.
  intros rule opts Hne Hstr. subst process.
  unfold defaultRuleProcessorElasticSearch, valueSwitch, withOperator.
  simpl valueSource. simpl operator. simpl field. simpl value. cbv zeta.
  destruct (isFieldSource (valueSource rule)) eqn:Hvs.
  - rewrite (existsb_not_string_false _ (Hstr eq_refl)).
    simpl escapeSQ. unfold bind.
    change (oneOf "in" ["="; "!="; ">"; ">="; "<"; "<="]) with false.
    change (oneOf "notIn" ["="; "!="; ">"; ">="; "<"; "<="]) with false.
    change (oneOf "in" ["in"; "notIn"]) with true.
    change (oneOf "notIn" ["in"; "notIn"]) with true.
    cbv iota. rewrite (length_positive _ Hne).
    erewrite (mapOutcome_strings _
                (fun x => scriptFilter
                   ("doc['" ++ escapeChars (field rule) ++ "'] == doc['"
                    ++ match x with VStr s => s | _ => EmptyString end
                    ++ "']")));
      [ | | exact (Hstr eq_refl)].
    + eexists. split; [|split; reflexivity]. apply length_map.
    + intros x Hx. destruct x; try discriminate Hx. reflexivity.
  - change (oneOf "in" ["<"; "<="; ">"; ">="]) with false.
    change (oneOf "notIn" ["<"; "<="; ">"; ">="]) with false.
    cbv iota.
    change ("in" =? "=") with false. change ("notIn" =? "=") with false.
    change ("in" =? "!=") with false. change ("notIn" =? "!=") with false.
    change ("in" =? "null") with false. change ("notIn" =? "null") with false.
    change ("in" =? "notNull") with false. change ("notIn" =? "notNull") with false.
    change (oneOf "in" ["in"; "notIn"]) with true.
    change (oneOf "notIn" ["in"; "notIn"]) with true.
    cbv iota. rewrite length_map, (length_positive _ Hne).
    eexists. split; [|split; reflexivity]. rewrite !length_map. reflexivity.
Qed.

(** X6.  With value source "field", a comparison or text operator and a
    value that is the empty string, null or undefined, the rule is
    omitted (provided [toArray value] holds strings only, as it does
    when it is empty). *)
Theorem field_source_empty_value_omitted :
  forall (rule : RuleType) (opts : ValueProcessorOptions),
    valueSource rule = Some VSfield ->
    oneOf (operator rule) (comparisonOperators ++ textOperators) = true ->
    truthy (value rule) = false ->
    (isTString (value rule) = true \/ isNullish (value rule) = true) ->
    forallb isTString (toArray (value rule)) = true ->
    process rule opts = Return JsFalse.
Proof.
  intros rule opts Hvs Hop Hf Hk Hstr. subst process.
  unfold defaultRuleProcessorElasticSearch.
  rewrite Hvs. simpl isFieldSource. cbv iota.
  rewrite (existsb_not_string_false _ Hstr).
  unfold comparisonOperators, textOperators in Hop.
  cases_of_operator Hop; rewrite Hop;
    destruct (value rule) as [| | | |s| |]; simpl in *;
    try (destruct Hk; discriminate); try reflexivity;
    destruct s; simpl in *; try discriminate; reflexivity.
Qed.

(** X7.  With a literal value source, a boolean value goes into the term
    of = and != and into the range of <, <=, >, >= as it is, whatever
    [parseNumbers] and the numeric test say. *)
Theorem boolean_value_is_not_parsed :
  forall (rule : RuleType) (opts : ValueProcessorOptions) (b : bool),
    isFieldSource (valueSource rule) = false ->
    value rule = VBool b ->
    (oneOf (operator rule) ["<"; "<="; ">"; ">="] = true ->
     process rule opts =
       Return (rangeRule1 (field rule) (rangeOperatorMap (operator rule)) (VBool b)))
    /\ (operator rule = "=" ->
        process rule opts = Return (termRule (field rule) (VBool b)))
    /\ (operator rule = "!=" ->
        process rule opts = Return (mustNot (termRule (field rule) (VBool b)))).
Proof.
  intros rule opts b Hvs Hv. subst process.
  unfold defaultRuleProcessorElasticSearch, valueSwitch, valueRenderer.
  rewrite Hvs, Hv. simpl.
  split; [|split]; intros Hop; rewrite Hop; reflexivity.
Qed.

(** X8.  With a literal value source, between and notBetween leave two
    valid bounds as they are, in the order given, unless both pass the
    numeric test: nothing is parsed and nothing is swapped. *)
Theorem between_keeps_non_numeric_bounds :
  forall (rule : RuleType) (opts : ValueProcessorOptions)
         (first second : any) (rest : list any),
    isFieldSource (valueSource rule) = false ->
    oneOf (operator rule) ["between"; "notBetween"] = true ->
    toArray (value rule) = first :: second :: rest ->
    isValidValue first = true ->
    isValidValue second = true ->
    (shouldRenderAsNumber first (Some true)
     && shouldRenderAsNumber second (Some true))%bool = false ->
    process rule opts =
      Return (negateIfNotOp (operator rule)
                (rangeRule2 (field rule) first second)).
Proof.
  intros rule opts first second rest Hvs Hop Harr Hv1 Hv2 Hnum.
  subst process. unfold defaultRuleProcessorElasticSearch, valueSwitch.
  rewrite Hvs, Harr. cbv zeta. unfold index. simpl nth. simpl List.length.
  rewrite Hv1, Hv2, Hnum.
  cases_of_operator Hop; rewrite Hop; reflexivity.
Qed.

(** X9.  An operator the first [switch] has no [case] for is handled as
    if the value source were literal: with value source "field" and
    strings only in [toArray value], the result is that of the same
    rule without a value source (so null and notNull test the field's
    existence whichever source is set). *)
Theorem field_source_falls_through :
  forall (rule : RuleType) (opts : ValueProcessorOptions),
    valueSource rule = Some VSfield ->
    oneOf (operator rule) fieldSwitchOperators = false ->
    forallb isTString (toArray (value rule)) = true ->
    process rule opts = process (withValueSource rule None) opts.
Proof.
  intros rule opts Hvs Hop Hstr. subst process.
  unfold defaultRuleProcessorElasticSearch, withValueSource.
  simpl valueSource. simpl isFieldSource. simpl operator. simpl value.
  rewrite Hvs. simpl isFieldSource. cbv iota.
  rewrite (existsb_not_string_false _ Hstr).
  unfold oneOf, fieldSwitchOperators, comparisonOperators, textOperators in Hop.
  simpl in Hop.
  repeat (apply orb_false_iff in Hop; destruct Hop as [? Hop]).
  unfold oneOf. simpl existsb. simpl escapeSQ. unfold bind.
  repeat match goal with E : (_ =? _) = false |- _ => rewrite E end.
  simpl. unfold valueSwitch. reflexivity.
Qed.

(** X10.  With value source "field" and an operator of the first
    [switch], the processor gives no literal term, range or regexp: it
    throws, omits the rule, or returns an object whose only key is
    [bool]. *)
Theorem field_source_result_is_bool_query :
  forall (rule : RuleType) (opts : ValueProcessorOptions),
    valueSource rule = Some VSfield ->
    oneOf (operator rule) fieldSwitchOperators = true ->
    process rule opts = Throw TypeError
    \/ process rule opts = Return JsFalse
    \/ exists body, process rule opts = Return (obj1 "bool" body).
Proof.
  intros rule opts Hvs Hop. subst process.
  unfold defaultRuleProcessorElasticSearch.
  rewrite Hvs. simpl isFieldSource. cbv iota.
  destruct (existsb _ _) eqn:Hex; [right; left; reflexivity|].
  apply existsb_not_string_false_inv in Hex.
  unfold fieldSwitchOperators, comparisonOperators, textOperators in Hop.
  cases_of_operator Hop; rewrite Hop; simpl escapeSQ; unfold bind;
    cbv zeta;
    match goal with
    | |- context [escapeSQ (value rule)] =>
        destruct (value rule) as [| | | |s| |]; simpl;
        try (left; reflexivity); try (right; left; reflexivity);
        destruct s; simpl;
        try (right; left; reflexivity);
        try (destruct (_ || _)%bool);
        right; right; eexists; reflexivity
    | |- context [mapOutcome] =>
        simpl oneOf; cbv iota;
        destruct (0 <? _)%nat; [|right; left; reflexivity];
        erewrite (mapOutcome_strings _
                    (fun x => scriptFilter
                       ("doc['" ++ escapeChars (field rule) ++ "'] == doc['"
                        ++ match x with VStr s => s | _ => EmptyString end
                        ++ "']")));
        [ right; right; eexists; reflexivity
        | intros x Hx; destruct x; try discriminate Hx; reflexivity
        | exact Hex ]
    | |- _ =>
        simpl oneOf; cbv iota;
        destruct (_ && _ && _)%bool eqn:Hb; [|right; left; reflexivity];
        apply andb_true_iff in Hb; destruct Hb as [Hb _];
        apply andb_true_iff in Hb; destruct Hb as [Hlen _];
        apply Nat.leb_le in Hlen;
        destruct (index_string_of_forallb _ 0 Hex ltac:(lia)) as [s0 ->];
        destruct (index_string_of_forallb _ 1 Hex ltac:(lia)) as [s1 ->];
        right; right; eexists; reflexivity
    end.
Qed.

(** X11.  With value source "field", a negating operator gives the
    script of the operator it negates with the negation in front:
    [!script] for the three doesNot... operators, [!(script)] for
    notBetween; it omits the rule, or throws, when the other does. *)
Theorem field_source_negated_script :
  forall (rule : RuleType) (opts : ValueProcessorOptions)
         (neg pos : string) (wrap : string -> string),
    In (neg, pos, wrap) negatedScripts ->
    valueSource rule = Some VSfield ->
    (process (withOperator rule pos) opts = Throw TypeError ->
     process (withOperator rule neg) opts = Throw TypeError)
    /\ (process (withOperator rule pos) opts = Return JsFalse ->
        process (withOperator rule neg) opts = Return JsFalse)
    /\ (forall script,
          process (withOperator rule pos) opts = Return (scriptFilter script) ->
          process (withOperator rule neg) opts
          = Return (scriptFilter (wrap script))).
Proof.
  intros rule opts neg pos wrap Hin Hvs. subst process.
  unfold defaultRuleProcessorElasticSearch, withOperator.
  simpl valueSource. simpl operator. simpl field. simpl value.
  rewrite Hvs. simpl isFieldSource. cbv iota.
  destruct (existsb _ _) eqn:Hex;
    [repeat split; intros; first [assumption | discriminate]|].
  apply existsb_not_string_false_inv in Hex.
  change (escapeSQ (VStr (field rule)))
    with (Return (VStr (escapeChars (field rule)))).
  unfold bind. cbv beta iota.
  simpl in Hin.
  destruct Hin as [H|[H|[H|[H|[]]]]]; injection H as <- <- <-.
  - cbv zeta.
    change (oneOf "between" ["="; "!="; ">"; ">="; "<"; "<="]) with false.
    change (oneOf "notBetween" ["="; "!="; ">"; ">="; "<"; "<="]) with false.
    change (oneOf "between" ["in"; "notIn"]) with false.
    change (oneOf "notBetween" ["in"; "notIn"]) with false.
    change (oneOf "between" ["between"; "notBetween"]) with true.
    change (oneOf "notBetween" ["between"; "notBetween"]) with true.
    cbv iota.
    destruct (_ && _ && _)%bool eqn:Hb;
      [|repeat split; intros; first [assumption | discriminate]].
    apply andb_true_iff in Hb. destruct Hb as [Hb _].
    apply andb_true_iff in Hb. destruct Hb as [Hlen _].
    apply Nat.leb_le in Hlen.
    destruct (index_string_of_forallb _ 0 Hex ltac:(lia)) as [s0 ->].
    destruct (index_string_of_forallb _ 1 Hex ltac:(lia)) as [s1 ->].
    cbn [ToString]. cbv beta iota.
    change ("between" =? "notBetween") with false.
    change ("notBetween" =? "notBetween") with true. cbv iota.
    repeat split; intros; try discriminate.
    match goal with H : Return _ = Return _ |- _ => injection H as <- end.
    reflexivity.
  - destruct (value rule) as [| | | |[|a s]| |]; simpl;
      try destruct (Ascii.eqb a quoteChar || Ascii.eqb a backslashChar)%bool;
      simpl; repeat split; intros; try discriminate; try assumption;
      match goal with H : Return _ = Return _ |- _ => injection H as <- end;
      reflexivity.
  - destruct (value rule) as [| | | |[|a s]| |]; simpl;
      try destruct (Ascii.eqb a quoteChar || Ascii.eqb a backslashChar)%bool;
      simpl; repeat split; intros; try discriminate; try assumption;
      match goal with H : Return _ = Return _ |- _ => injection H as <- end;
      reflexivity.
  - destruct (value rule) as [| | | |[|a s]| |]; simpl;
      try destruct (Ascii.eqb a quoteChar || Ascii.eqb a backslashChar)%bool;
      simpl; repeat split; intros; try discriminate; try assumption;
      match goal with H : Return _ = Return _ |- _ => injection H as <- end;
      reflexivity.
Qed.

(** With a literal value source the processor omits the rule, throws,
    or returns an object. *)
Lemma literal_source_outcome (rule : RuleType) (opts : ValueProcessorOptions) :
  isFieldSource (valueSource rule) = false ->
  process rule opts = Return JsFalse
  \/ process rule opts = Throw TypeError
  \/ exists props, process rule opts = Return (VObj props).
Proof.
  intros Hvs. subst process.
  unfold defaultRuleProcessorElasticSearch. rewrite Hvs.
  destruct (oneOf (operator rule) supportedOperators) eqn:Hop.
  - unfold supportedOperators in Hop. unfold valueSwitch. cbv zeta.
    cases_of_operator Hop; rewrite Hop; simpl oneOf; simpl String.eqb;
      cbv iota;
      first
        [ solve [right; right; eexists; reflexivity]
        | solve [destruct (0 <? _)%nat;
                 [right; right; eexists; reflexivity | left; reflexivity]]
        | solve [destruct (_ && _ && _)%bool; [|left; reflexivity];
                 destruct (_ && _)%bool; [destruct (SFltb _ _)|];
                 right; right; eexists; reflexivity]
        | destruct (ToString numToString (value rule)) as [text|[]];
          unfold bind;
          [right; right; eexists; reflexivity | right; left; reflexivity] ].
  - left. apply valueSwitch_unsupported. exact Hop.
Qed.

(** X12.  With a literal value source the processor returns [false]
    exactly when the operator has no [case], or is in/notIn with an
    empty [toArray value], or is between/notBetween without two valid
    first values: a rule is omitted in these cases only.  In every
    other case it returns an object, the rendered rule, or throws (in
    the template literals of beginsWith, doesNotBeginWith, endsWith and
    doesNotEndWith, when the value cannot be converted to a string). *)
Theorem literal_source_omitted_iff :
  forall (rule : RuleType) (opts : ValueProcessorOptions),
    isFieldSource (valueSource rule) = false ->
    (process rule opts = Return JsFalse
     <-> (oneOf (operator rule) supportedOperators = false
          \/ (oneOf (operator rule) ["in"; "notIn"] = true
              /\ toArray (value rule) = [])
          \/ (oneOf (operator rule) ["between"; "notBetween"] = true
              /\ hasTwoValidValues isValidValue (toArray (value rule)) = false)))
    /\ (process rule opts = Return JsFalse
        \/ (process rule opts = Throw TypeError
            /\ oneOf (operator rule)
                 ["beginsWith"; "doesNotBeginWith"; "endsWith"; "doesNotEndWith"]
               = true
            /\ ToString numToString (value rule) = Throw TypeError)
        \/ exists props, process rule opts = Return (VObj props)).
Proof.
  intros rule opts Hvs.
  split.
  2:{ destruct (literal_source_outcome rule opts Hvs) as [H|[H|H]];
        [left; exact H | right; left | right; right; exact H].
      split; [exact H|]. subst process.
      unfold defaultRuleProcessorElasticSearch in H. rewrite Hvs in H.
      apply valueSwitch_throws in H. exact H. }
  revert rule opts Hvs.
  intros rule opts Hvs. subst process. split.
  - unfold defaultRuleProcessorElasticSearch. rewrite Hvs.
    destruct (oneOf (operator rule) supportedOperators) eqn:Hop;
      [|intros _; left; reflexivity].
    unfold valueSwitch, hasTwoValidValues. cbv zeta.
    unfold supportedOperators in Hop.
    cases_of_operator Hop; rewrite Hop; intros H; right;
      try (exfalso; revert H; simpl; unfold negateIfNotOp; simpl;
           discriminate);
      try (exfalso; revert H; simpl oneOf; simpl String.eqb; cbv iota;
           destruct (ToString numToString (value rule)) as [text|[]];
           unfold bind, negateIfNotOp; simpl; discriminate).
    + left. split; [reflexivity|]. revert H. simpl.
      destruct (toArray (value rule)); [reflexivity | discriminate].
    + left. split; [reflexivity|]. revert H. simpl.
      destruct (toArray (value rule)); [reflexivity | discriminate].
    + right. split; [reflexivity|]. revert H.
      change (oneOf "between" ["<"; "<="; ">"; ">="]) with false.
      change (oneOf "between" ["in"; "notIn"]) with false.
      change (oneOf "between" ["between"; "notBetween"]) with true.
      change ("between" =? "=") with false. change ("between" =? "!=") with false.
      change ("between" =? "null") with false.
      change ("between" =? "notNull") with false. cbv iota.
      destruct (_ && _ && _)%bool; [|reflexivity].
      destruct (_ && _)%bool; [destruct (SFltb _ _)|]; discriminate.
    + right. split; [reflexivity|]. revert H.
      change (oneOf "notBetween" ["<"; "<="; ">"; ">="]) with false.
      change (oneOf "notBetween" ["in"; "notIn"]) with false.
      change (oneOf "notBetween" ["between"; "notBetween"]) with true.
      change ("notBetween" =? "=") with false.
      change ("notBetween" =? "!=") with false.
      change ("notBetween" =? "null") with false.
      change ("notBetween" =? "notNull") with false. cbv iota.
      destruct (_ && _ && _)%bool; [|reflexivity].
      destruct (_ && _)%bool; [destruct (SFltb _ _)|]; discriminate.
  - intros [H | [[Hop H] | [Hop H]]].
    + unfold defaultRuleProcessorElasticSearch. rewrite Hvs.
      rewrite (valueSwitch_unsupported toArray isValidValue shouldRenderAsNumber
                 parseFloat numToString rule opts H). reflexivity.
    + unfold defaultRuleProcessorElasticSearch, valueSwitch. rewrite Hvs, H.
      cases_of_operator Hop; rewrite Hop; reflexivity.
    + unfold defaultRuleProcessorElasticSearch, valueSwitch. rewrite Hvs.
      unfold hasTwoValidValues in H. cbv zeta. rewrite H.
      cases_of_operator Hop; rewrite Hop; reflexivity.
Qed.

End ElasticSearchOutcomes.

(* ================================================================== *)
(** * Part IV.b  Drops among siblings *)
(* ================================================================== *)

Lemma pathsAreEqual_refl (path : Path) : pathsAreEqual path path = true.
Proof.
  induction path as [|a path IH]; [reflexivity|].
  simpl. rewrite Nat.eqb_refl. exact IH.
Qed.

Lemma isAncestor_sibling (parent : Path) (i j : nat) :
  isAncestor (parent ++ [i])%list (parent ++ [j])%list = false.
Proof.
  induction parent as [|a parent IH]; simpl.
  - rewrite andb_false_r. reflexivity.
  - rewrite IH. apply andb_false_r.
Qed.

Lemma indexEqMinus_nat (h i k : nat) :
  indexEqMinus (Some h) (Some i) (Z.of_nat k) = (h + k =? i)%nat.
Proof.
  unfold indexEqMinus.
  destruct (Nat.eqb_spec (h + k) i) as [He|Hne].
  - apply Z.eqb_eq. lia.
  - apply Z.eqb_neq. lia.
Qed.

(** X13.  Among the children of one group, the hook accepts the drop of
    the item at index [i] on the rule at index [j] exactly when the user
    predicate (if any) accepts it and [j] is not [i], not [i - 1] and,
    with independent combinators, not [i - 2]: the drops it refuses are
    those that would leave the item where it is. *)
Theorem canDrop_among_siblings :
  forall (canDrop : option (DraggedItem -> Path -> bool))
         (independentCombinators : option bool)
         (parent : Path) (i j : nat),
    let item := mkDraggedItem (parent ++ [i])%list in
    let path := (parent ++ [j])%list in
    useRuleDnD_canDrop canDrop independentCombinators path item
    = (match canDrop with
       | Some userCanDrop => userCanDrop item path
       | None => true
       end
       && negb ((j =? i)%nat || (j + 1 =? i)%nat
                || (isTrue independentCombinators && (j + 2 =? i)%nat)))%bool.
Proof.
  intros canDrop ic parent i j item path. subst item path.
  unfold useRuleDnD_canDrop. simpl item_path. cbv zeta.
  rewrite isAncestor_sibling, !getParentPath_app, pathsAreEqual_refl.
  rewrite !lastIndex_app.
  change 1%Z with (Z.of_nat 1). change 2%Z with (Z.of_nat 2).
  rewrite !indexEqMinus_nat. simpl indexEq. simpl orb. simpl andb.
  destruct canDrop as [f|]; [destruct (f _ _)|]; reflexivity.
Qed.

(* ================================================================== *)
(** * Part IV.c  The merged context *)
(* ================================================================== *)

(** ** Objects *)

Lemma getProp_setProp_same (k : string) (v : any) (o : JsObject) :
  getProp (setProp k v o) k = v.
Proof.
  induction o as [|[k' v'] o IH]; simpl.
  - rewrite String.eqb_refl. reflexivity.
  - destruct (k' =? k) eqn:E; simpl.
    + rewrite String.eqb_refl. reflexivity.
    + rewrite E. exact IH.
Qed.

Lemma getProp_setProp_other (k k0 : string) (v : any) (o : JsObject) :
  k0 <> k -> getProp (setProp k0 v o) k = getProp o k.
Proof.
  intros Hne. apply String.eqb_neq in Hne.
  induction o as [|[k' v'] o IH]; simpl.
  - rewrite Hne. reflexivity.
  - destruct (k' =? k0) eqn:E; simpl.
    + apply String.eqb_eq in E. subst k'. rewrite Hne. reflexivity.
    + destruct (k' =? k); [reflexivity | exact IH].
Qed.

Lemma getProp_absent (o : JsObject) (k : string) :
  hasProp o k = false -> getProp o k = VUndefined.
Proof.
  unfold hasProp. induction o as [|[k' v'] o IH]; simpl; [reflexivity|].
  destruct (k' =? k); simpl; [discriminate | exact IH].
Qed.

Lemma hasProp_In (o : JsObject) (k : string) :
  hasProp o k = true <-> In k (map fst o).
Proof.
  unfold hasProp. rewrite existsb_exists, in_map_iff. split.
  - intros [kv [Hin He]]. apply String.eqb_eq in He. exists kv. tauto.
  - intros [kv [He Hin]]. exists kv. split; [exact Hin|].
    apply String.eqb_eq. exact He.
Qed.

(** What a spread leaves at a key: the source's value when the source
    has the key, the target's otherwise. *)
Lemma getProp_spread (source : JsObject) (target : JsObject) (k : string) :
  uniqueKeys source ->
  getProp (fold_left (fun t kv => setProp (fst kv) (snd kv) t) source target) k
  = if hasProp source k then getProp source k else getProp target k.
Proof.
  unfold uniqueKeys. revert target.
  induction source as [|[k0 v0] source IH]; intros target Hu; simpl;
    [reflexivity|].
  inversion Hu as [|? ? Hnotin Hu']; subst. rewrite (IH _ Hu').
  unfold hasProp at 2. simpl existsb. fold (hasProp source k).
  destruct (String.eqb_spec k0 k) as [He|Hne].
  - subst k0. simpl orb.
    destruct (hasProp source k) eqn:Hh.
    + exfalso. apply Hnotin. apply hasProp_In. exact Hh.
    + apply getProp_setProp_same.
  - simpl orb. destruct (hasProp source k); [reflexivity|].
    apply getProp_setProp_other. exact Hne.
Qed.

Lemma getProp_spread_absent (source : JsObject) (target : JsObject) (k : string) :
  hasProp source k = false ->
  getProp (fold_left (fun t kv => setProp (fst kv) (snd kv) t) source target) k
  = getProp target k.
Proof.
  revert target. induction source as [|[k0 v0] source IH]; intros target H;
    simpl; [reflexivity|].
  unfold hasProp in H. simpl in H. apply orb_false_iff in H.
  destruct H as [Hk Hs]. rewrite (IH _ Hs).
  apply getProp_setProp_other. apply String.eqb_neq. exact Hk.
Qed.

Lemma hasProp_withoutProp (k0 k : string) (o : JsObject) :
  hasProp (withoutProp k0 o) k = (negb (k0 =? k) && hasProp o k)%bool.
Proof.
  unfold hasProp, withoutProp. induction o as [|[k' v'] o IH]; simpl.
  - apply eq_sym, andb_false_r.
  - destruct (String.eqb_spec k' k0) as [He|Hne]; simpl.
    + subst k'. rewrite IH. destruct (k0 =? k); reflexivity.
    + rewrite IH. destruct (String.eqb_spec k' k) as [He'|Hne']; simpl.
      * subst k'. apply String.eqb_neq in Hne. rewrite String.eqb_sym in Hne.
        rewrite Hne. reflexivity.
      * reflexivity.
Qed.

Lemma getProp_withoutProp (k0 k : string) (o : JsObject) :
  k0 <> k -> getProp (withoutProp k0 o) k = getProp o k.
Proof.
  intros Hne. unfold withoutProp. induction o as [|[k' v'] o IH]; simpl;
    [reflexivity|].
  destruct (String.eqb_spec k' k0) as [He|Hne0]; simpl.
  - subst k'. apply String.eqb_neq in Hne. rewrite Hne. exact IH.
  - destruct (k' =? k); [reflexivity | exact IH].
Qed.

Lemma uniqueKeys_withoutProp (k0 : string) (o : JsObject) :
  uniqueKeys o -> uniqueKeys (withoutProp k0 o).
Proof.
  unfold uniqueKeys, withoutProp. induction o as [|[k' v'] o IH]; simpl;
    intros Hu; [constructor|].
  inversion Hu as [|? ? Hnotin Hu']; subst.
  destruct (negb (k' =? k0)); simpl; [|apply IH; exact Hu'].
  constructor; [|apply IH; exact Hu'].
  intros Hin. apply Hnotin. apply in_map_iff in Hin.
  destruct Hin as [kv [He Hf]]. apply filter_In in Hf.
  apply in_map_iff. exists kv. tauto.
Qed.

Lemma otherContext_hasProp (keys : list string) (o : JsObject) (k : string) :
  hasProp (fold_right withoutProp o keys) k
  = (negb (oneOf k keys) && hasProp o k)%bool.
Proof.
  induction keys as [|k0 keys IH]; simpl; [reflexivity|].
  rewrite hasProp_withoutProp, IH. unfold oneOf. simpl.
  rewrite (String.eqb_sym k k0).
  destruct (k0 =? k), (existsb (String.eqb k) keys); reflexivity.
Qed.

Lemma otherContext_getProp (keys : list string) (o : JsObject) (k : string) :
  oneOf k keys = false -> getProp (fold_right withoutProp o keys) k = getProp o k.
Proof.
  induction keys as [|k0 keys IH]; simpl; intros H; [reflexivity|].
  unfold oneOf in H. simpl in H. apply orb_false_iff in H. destruct H as [Hk Hs].
  rewrite getProp_withoutProp; [apply IH; exact Hs|].
  apply String.eqb_neq. rewrite String.eqb_sym. exact Hk.
Qed.

Lemma otherContext_uniqueKeys (keys : list string) (o : JsObject) :
  uniqueKeys o -> uniqueKeys (fold_right withoutProp o keys).
Proof.
  intros Hu. induction keys as [|k0 keys IH]; simpl; [exact Hu|].
  apply uniqueKeys_withoutProp. exact IH.
Qed.

Section MergedContextFacts.

Variable usePreferProp : bool -> any -> any -> bool.
Variable mergeClassnames : any -> any -> any -> any.
Variable mergeTranslations : any -> any -> any -> any.
Variable defaultControlClassnames : any.
Variable defaultControlElements : JsObject.
Variable defaultTranslations : any.

Let merged :=
  useMergedContext usePreferProp mergeClassnames mergeTranslations
    defaultControlClassnames defaultControlElements defaultTranslations.

(** A key the hook computes keeps the computed value: the rest of the
    context, spread last, does not have it. *)
Lemma merged_key (props rqbContext : JsObject) (k : string) :
  oneOf k mergedKeys = true ->
  forall six : JsObject,
    getProp (spreadInto six (VObj (fold_right withoutProp rqbContext mergedKeys))) k
    = getProp six k.
Proof.
  intros Hk six. unfold spreadInto, ownProps.
  apply getProp_spread_absent. rewrite otherContext_hasProp, Hk. reflexivity.
Qed.

(** X14.  In the merged [controlElements], each key holds the component
    given in the props if the props give one, else the one of the
    context if the context gives one, else the default. *)
Theorem controlElements_prefer_props_then_context :
  forall (props rqbContext : JsObject) (k : string),
    let fromProps := ownProps (getProp props "controlElements") in
    let fromContext := ownProps (getProp rqbContext "controlElements") in
    uniqueKeys fromProps ->
    uniqueKeys fromContext ->
    uniqueKeys defaultControlElements ->
    exists controlElements : JsObject,
      getProp (merged props rqbContext) "controlElements" = VObj controlElements
      /\ getProp controlElements k
         = if hasProp fromProps k then getProp fromProps k
           else if hasProp fromContext k then getProp fromContext k
           else getProp defaultControlElements k.
Proof.
  intros props rqbContext k fromProps fromContext Hp Hc Hd.
  subst merged. unfold useMergedContext. cbv zeta.
  eexists. split.
  - rewrite (merged_key props rqbContext "controlElements" eq_refl). reflexivity.
  - unfold spreadInto at 1. fold fromProps. rewrite (getProp_spread _ _ _ Hp).
    destruct (hasProp fromProps k); [reflexivity|].
    unfold spreadInto at 1. fold fromContext. rewrite (getProp_spread _ _ _ Hc).
    destruct (hasProp fromContext k); [reflexivity|].
    unfold spreadInto, ownProps. rewrite (getProp_spread _ _ _ Hd).
    destruct (hasProp defaultControlElements k) eqn:Hh; [reflexivity|].
    rewrite (getProp_absent _ _ Hh). reflexivity.
Qed.

(** X15.  Every property of the context other than the six merged ones
    comes out of the hook with the value it has in the context. *)
Theorem other_context_passes_through :
  forall (props rqbContext : JsObject) (k : string),
    uniqueKeys rqbContext ->
    oneOf k mergedKeys = false ->
    getProp (merged props rqbContext) k = getProp rqbContext k.
Proof.
  intros props rqbContext k Hu Hk.
  subst merged. unfold useMergedContext. cbv zeta.
  unfold spreadInto, ownProps.
  rewrite (getProp_spread _ _ _ (otherContext_uniqueKeys mergedKeys _ Hu)).
  rewrite otherContext_hasProp, Hk. simpl negb. simpl andb.
  rewrite (otherContext_getProp _ _ _ Hk).
  destruct (hasProp rqbContext k) eqn:Hh; [reflexivity|].
  rewrite (getProp_absent _ _ Hh).
  unfold oneOf, mergedKeys in Hk. simpl in Hk.
  repeat (apply orb_false_iff in Hk; destruct Hk as [? Hk]).
  cbn [getProp].
  repeat match goal with
         | E : (k =? _) = false |- _ =>
             rewrite String.eqb_sym in E; rewrite E; clear E
         end.
  reflexivity.
Qed.

(** X16.  Drag-and-drop comes out disabled whenever the context sets it
    to [false], whatever the props say; otherwise it is what
    [usePreferProp] makes of prop and context with default [false]. *)
Theorem enableDragAndDrop_context_false_wins :
  forall (props rqbContext : JsObject),
    getProp (merged props rqbContext) "enableDragAndDrop"
    = VBool (if isJsFalse (getProp rqbContext "enableDragAndDrop") then false
             else usePreferProp false (getProp props "enableDragAndDrop")
                    (getProp rqbContext "enableDragAndDrop")).
Proof.
  intros props rqbContext. subst merged. unfold useMergedContext. cbv zeta.
  rewrite (merged_key props rqbContext "enableDragAndDrop" eq_refl).
  match goal with
  | |- getProp (_ :: _ :: _ :: (_, ?v) :: _) _ = _ => change (v = VBool
      (if isJsFalse (getProp rqbContext "enableDragAndDrop") then false
       else usePreferProp false (getProp props "enableDragAndDrop")
              (getProp rqbContext "enableDragAndDrop")))
  end.
  destruct (getProp rqbContext "enableDragAndDrop") as [| |[|]| | | |];
    simpl; rewrite ?andb_true_r, ?andb_false_r; reflexivity.
Qed.

End MergedContextFacts.

(* ================================================================== *)
(** * Part IV.d  The date range round trip *)
(* ================================================================== *)

Lemma splitComma_hasNoComma (s : string) :
  hasNoComma s = true -> IntHelpers.splitComma s = [s].
Proof.
  induction s as [|c s IH]; simpl; [reflexivity|].
  destruct (Ascii.eqb c ","%char); simpl; [discriminate|].
  intros H. rewrite (IH H). reflexivity.
Qed.

Lemma splitComma_first (a b : string) :
  hasNoComma a = true ->
  IntHelpers.splitComma (a ++ String ","%char b)
  = a :: IntHelpers.splitComma b.
Proof.
  induction a as [|c a IH]; simpl; [reflexivity|].
  destruct (Ascii.eqb c ","%char); simpl; [discriminate|].
  intros H. rewrite (IH H). reflexivity.
Qed.

(** X17.  A date range written by the custom value editor is read back
    as the pair of strings it was written from, provided neither
    contains a comma (as the texts of format yyyy-MM-dd, and the empty
    text of a missing date, do not); a value without any comma reads as
    a start with an undefined end. *)
Theorem date_range_round_trip :
  forall startText endText : string,
    hasNoComma startText = true ->
    hasNoComma endText = true ->
    readDateRange (writeDateRange startText endText)
    = (VStr startText, VStr endText)
    /\ readDateRange startText = (VStr startText, VUndefined).
Proof.
  intros a b Ha Hb. unfold readDateRange, writeDateRange. split.
  - change (a ++ "," ++ b) with (a ++ String ","%char b).
    rewrite (splitComma_first a b Ha), (splitComma_hasNoComma b Hb). reflexivity.
  - rewrite (splitComma_hasNoComma a Ha). reflexivity.
Qed.

(* ================================================================== *)
(** * Part IV.e  The further facts at concrete inputs *)
(* ================================================================== *)

(** An object whose own [toString] property is a number. *)
Definition unconvertible : any := VObj [("toString", VNum (IntHelpers.ofZ 1))].

Lemma processor_throws_iff_witness :
  IntHelpers.process (rule3 "a" "=" (VArr [VStr "b"]) (Some VSfield)) noOptions
  = Throw TypeError
  /\ IntHelpers.process (rule3 "a" "endsWith" unconvertible None) noOptions
     = Throw TypeError.
Proof.
  split.
  - apply (proj2 (processor_throws_iff
                    IntHelpers.toArray IntHelpers.isValidValue
                    IntHelpers.shouldRenderAsNumber IntHelpers.parseFloat
                    IntHelpers.numToString
                    (rule3 "a" "=" (VArr [VStr "b"]) (Some VSfield)) noOptions)).
    left. repeat split; reflexivity.
  - apply (proj2 (processor_throws_iff
                    IntHelpers.toArray IntHelpers.isValidValue
                    IntHelpers.shouldRenderAsNumber IntHelpers.parseFloat
                    IntHelpers.numToString
                    (rule3 "a" "endsWith" unconvertible None) noOptions)).
    right. repeat split; reflexivity.
Defined.

Lemma negated_operator_is_must_not_witness :
  IntHelpers.process (rule3 "age" "notBetween" (VStr "12,30") None) noOptions
  = Return (mustNot (rangeRule2 "age" (VNum (IntHelpers.ofZ 12))
                       (VNum (IntHelpers.ofZ 30))))
  /\ IntHelpers.process (rule3 "a" "doesNotBeginWith" (VArr [unconvertible]) None)
       noOptions
     = Throw TypeError.
Proof.
  split.
  - refine (eq_trans
              (proj1 (negated_operator_is_must_not
                        IntHelpers.toArray IntHelpers.isValidValue
                        IntHelpers.shouldRenderAsNumber IntHelpers.parseFloat
                        IntHelpers.numToString
                        (rule3 "age" "=" (VStr "12,30") None) noOptions
                        "notBetween" "between" _ _)) _).
    + simpl. right. right. left. reflexivity.
    + reflexivity.
    + reflexivity.
  - refine (eq_trans
              (proj1 (negated_operator_is_must_not
                        IntHelpers.toArray IntHelpers.isValidValue
                        IntHelpers.shouldRenderAsNumber IntHelpers.parseFloat
                        IntHelpers.numToString
                        (rule3 "a" "=" (VArr [unconvertible]) None) noOptions
                        "doesNotBeginWith" "beginsWith" _ _)) _).
    + simpl. do 4 right. left. reflexivity.
    + reflexivity.
    + reflexivity.
Defined.

Lemma in_and_notIn_share_clauses_witness :
  exists clauses : list any,
    List.length clauses = 3
    /\ IntHelpers.process (rule3 "age" "in" (VStr "1, 2, 3") None) noOptions
       = Return (obj1 "bool" (obj1 "should" (VArr clauses)))
    /\ IntHelpers.process (rule3 "age" "notIn" (VStr "1, 2, 3") None) noOptions
       = Return (obj1 "bool" (obj1 "must_not" (VArr clauses))).
Proof.
  apply (in_and_notIn_share_clauses
           IntHelpers.toArray IntHelpers.isValidValue
           IntHelpers.shouldRenderAsNumber IntHelpers.parseFloat
           IntHelpers.numToString
           (rule3 "age" "=" (VStr "1, 2, 3") None) noOptions).
  - discriminate.
  - discriminate.
Defined.

Lemma field_source_empty_value_omitted_witness :
  IntHelpers.process (rule3 "a" "contains" VNull (Some VSfield)) noOptions
  = Return JsFalse.
Proof.
  apply (field_source_empty_value_omitted
           IntHelpers.toArray IntHelpers.isValidValue
           IntHelpers.shouldRenderAsNumber IntHelpers.parseFloat
           IntHelpers.numToString
           (rule3 "a" "contains" VNull (Some VSfield)) noOptions).
  - reflexivity.
  - reflexivity.
  - reflexivity.
  - right. reflexivity.
  - reflexivity.
Defined.

Lemma boolean_value_is_not_parsed_witness :
  IntHelpers.process (rule3 "isMusician" "=" (VBool true) None) withParseNumbers
  = Return (termRule "isMusician" (VBool true)).
Proof.
  refine (proj1 (proj2 (boolean_value_is_not_parsed
            IntHelpers.toArray IntHelpers.isValidValue
            IntHelpers.shouldRenderAsNumber IntHelpers.parseFloat
            IntHelpers.numToString
            (rule3 "isMusician" "=" (VBool true) None) withParseNumbers true
            _ _)) _).
  - reflexivity.
  - reflexivity.
  - reflexivity.
Defined.

Lemma between_keeps_non_numeric_bounds_witness :
  IntHelpers.process
    (rule3 "born" "between" (VStr "1960-06-06,1954-10-03") None) withParseNumbers
  = Return (rangeRule2 "born" (VStr "1960-06-06") (VStr "1954-10-03")).
Proof.
  apply (between_keeps_non_numeric_bounds
           IntHelpers.toArray IntHelpers.isValidValue
           IntHelpers.shouldRenderAsNumber IntHelpers.parseFloat
           IntHelpers.numToString
           (rule3 "born" "between" (VStr "1960-06-06,1954-10-03") None)
           withParseNumbers (VStr "1960-06-06") (VStr "1954-10-03") []).
  - reflexivity.
  - reflexivity.
  - reflexivity.
  - reflexivity.
  - reflexivity.
  - reflexivity.
Defined.

Lemma field_source_falls_through_witness :
  IntHelpers.process (rule3 "a" "notNull" (VStr "b") (Some VSfield)) noOptions
  = IntHelpers.process (rule3 "a" "notNull" (VStr "b") None) noOptions.
Proof.
  apply (field_source_falls_through
           IntHelpers.toArray IntHelpers.isValidValue
           IntHelpers.shouldRenderAsNumber IntHelpers.parseFloat
           IntHelpers.numToString
           (rule3 "a" "notNull" (VStr "b") (Some VSfield)) noOptions).
  - reflexivity.
  - reflexivity.
  - reflexivity.
Defined.

Lemma field_source_result_is_bool_query_witness :
  let rule := rule3 "a" "notIn" (VStr "b, c") (Some VSfield) in
  IntHelpers.process rule noOptions = Throw TypeError
  \/ IntHelpers.process rule noOptions = Return JsFalse
  \/ exists body, IntHelpers.process rule noOptions = Return (obj1 "bool" body).
Proof.
  apply (field_source_result_is_bool_query
           IntHelpers.toArray IntHelpers.isValidValue
           IntHelpers.shouldRenderAsNumber IntHelpers.parseFloat
           IntHelpers.numToString
           (rule3 "a" "notIn" (VStr "b, c") (Some VSfield)) noOptions).
  - reflexivity.
  - reflexivity.
Defined.

Lemma field_source_negated_script_witness :
  IntHelpers.process (rule3 "a" "doesNotBeginWith" (VStr "b") (Some VSfield))
    noOptions
  = Return (scriptFilter "!doc['a'].startsWith(doc['b'])").
Proof.
  refine (proj2 (proj2 (field_source_negated_script
            IntHelpers.toArray IntHelpers.isValidValue
            IntHelpers.shouldRenderAsNumber IntHelpers.parseFloat
            IntHelpers.numToString
            (rule3 "a" "=" (VStr "b") (Some VSfield)) noOptions
            "doesNotBeginWith" "beginsWith" (fun script => "!" ++ script)
            _ _)) "doc['a'].startsWith(doc['b'])" _).
  - simpl. right. right. left. reflexivity.
  - reflexivity.
  - reflexivity.
Defined.

(** A context, props and defaults to merge. *)
Definition samplePreferProp (default : bool) (prop context : any) : bool :=
  match prop, context with
  | VBool b, _ => b
  | _, VBool b => b
  | _, _ => default
  end.

Definition sampleMerge (a b c : any) : any := VArr [a; b; c].

Definition sampleDefaultElements : JsObject :=
  [("valueEditor", VStr "ValueEditor"); ("dragHandle", VStr "DragHandle");
   ("notToggle", VStr "NotToggle")].

Definition sampleContext : JsObject :=
  [("controlElements",
    VObj [("valueEditor", VStr "ContextValueEditor");
          ("dragHandle", VStr "ContextDragHandle")]);
   ("enableDragAndDrop", VBool false);
   ("qbId", VStr "qb1")].

Definition sampleProps : JsObject :=
  [("controlElements", VObj [("valueEditor", VStr "CustomValueEditor")]);
   ("enableDragAndDrop", VBool true)].

Definition sampleMerged : JsObject :=
  useMergedContext samplePreferProp sampleMerge sampleMerge VNull
    sampleDefaultElements VNull sampleProps sampleContext.

Ltac unique_keys :=
  unfold uniqueKeys; simpl;
  repeat (constructor; [simpl; intuition discriminate|]); constructor.

Lemma controlElements_prefer_props_then_context_witness :
  exists controlElements : JsObject,
    getProp sampleMerged "controlElements" = VObj controlElements
    /\ getProp controlElements "dragHandle" = VStr "ContextDragHandle".
Proof.
  apply (controlElements_prefer_props_then_context
           samplePreferProp sampleMerge sampleMerge VNull
           sampleDefaultElements VNull sampleProps sampleContext "dragHandle").
  - unique_keys.
  - unique_keys.
  - unique_keys.
Defined.

Lemma other_context_passes_through_witness :
  getProp sampleMerged "qbId" = VStr "qb1".
Proof.
  apply (other_context_passes_through
           samplePreferProp sampleMerge sampleMerge VNull
           sampleDefaultElements VNull sampleProps sampleContext "qbId").
  - unique_keys.
  - reflexivity.
Defined.

Example sample_drag_and_drop_disabled :
  getProp sampleMerged "enableDragAndDrop" = VBool false.
Proof. reflexivity. Qed.

Lemma date_range_round_trip_witness :
  readDateRange (writeDateRange "1960-06-06" "1954-10-03")
  = (VStr "1960-06-06", VStr "1954-10-03").
Proof.
  apply (proj1 (date_range_round_trip "1960-06-06" "1954-10-03" eq_refl eq_refl)).
Defined.

Lemma literal_source_omitted_iff_witness :
  IntHelpers.process (rule3 "age" "in" (VStr " , ") None) noOptions
  = Return JsFalse.
Proof.
  apply (proj2 (proj1 (literal_source_omitted_iff
                         IntHelpers.toArray IntHelpers.isValidValue
                         IntHelpers.shouldRenderAsNumber IntHelpers.parseFloat
                         IntHelpers.numToString
                         (rule3 "age" "in" (VStr " , ") None) noOptions
                         eq_refl))).
  right. left. split; reflexivity.
Defined.

Example run_endsWith_unconvertible :
  IntHelpers.process (rule3 "a" "endsWith" unconvertible None) noOptions
  = Throw TypeError.
Proof. reflexivity. Qed.

Example run_beginsWith_array :
  IntHelpers.process (rule3 "a" "beginsWith" (VArr [VStr "x"; VNull; VStr "y"]) None)
    noOptions
  = Return (regexpRule "a" (VStr "^x,,y")).
Proof. reflexivity. Qed.

Example run_beginsWith_plain_object :
  IntHelpers.process (rule3 "a" "beginsWith" (VObj [("k", VNull)]) None) noOptions
  = Return (regexpRule "a" (VStr "^[object Object]")).
Proof. reflexivity. Qed.
